(** * framework-log: a shallow embedding of the logging facade

    The development follows the Go package [log] of
    [github.com/go-anyway/framework-log]: the option functions and the
    [Config] type of [options.go], the logger factory, the global
    logger slot and the context extractor of [log.go], and the gin
    writer adapters.

    Go strings and byte slices are [string]s (sequences of bytes), Go
    [int]s are [Z], pointers to loggers are indices into a heap of
    logger objects, and functions that mutate their argument or the
    package variables return the new state next to their result. *)

From Stdlib Require Import ZArith Ascii String List Bool Lia DecimalString.
From stdpp Require Import base option list gmap strings.

Local Open Scope string_scope.
Local Open Scope list_scope.
Local Open Scope Z_scope.

(** ** Go's [strings.ToLower] / [bytes.ToLower]

    The ASCII path of the Go runtime: bytes ['A'..'Z'] are moved to
    ['a'..'z'], every other byte is kept.  On input with a byte at or
    above [0x80] Go maps [unicode.ToLower] over the runes instead; that
    table is not part of this development, and [isASCII] marks the
    inputs on which [ToLower] is the Go function.  The only runes
    outside ASCII that Go lower-cases to an ASCII letter are U+0130
    (to 'i') and U+212A (to 'k'): neither letter occurs in "stdout" or
    "stderr", so comparing [ToLower p] with these two names gives Go's
    answer for every [p]; the level names "info", "panic", "dpanic"
    and "warning" do contain 'i', which is why statements about level
    strings are made for ASCII input. *)

Definition lower_byte (c : ascii) : ascii :=
  let n := nat_of_ascii c in
  if (Nat.leb 65 n && Nat.leb n 90)%bool then ascii_of_nat (n + 32) else c.

Fixpoint ToLower (s : string) : string :=
  match s with
  | EmptyString => EmptyString
  | String c r => String (lower_byte c) (ToLower r)
  end.

Fixpoint isASCII (s : string) : bool :=
  match s with
  | EmptyString => true
  | String c r => (Nat.ltb (nat_of_ascii c) 128 && isASCII r)%bool
  end.

(** ** The part of [go.uber.org/zap/zapcore] the package relies on *)

Module zapcore.

(** [type Level int8] *)
Definition Level := Z.

Definition DebugLevel : Level := -1.
Definition InfoLevel : Level := 0.
Definition WarnLevel : Level := 1.
Definition ErrorLevel : Level := 2.
Definition DPanicLevel : Level := 3.
Definition PanicLevel : Level := 4.
Definition FatalLevel : Level := 5.

(** [func (l *Level) unmarshalText(text []byte) bool]: the switch
    over the literal spellings of zap v1.27.1, which reads "warning" as
    another name of "warn"; [None] is the [default: return false]
    branch. *)
Definition unmarshalText (text : string) : option Level :=
  if String.eqb text "debug" || String.eqb text "DEBUG" then Some DebugLevel
  else if String.eqb text "info" || String.eqb text "INFO"
          || String.eqb text "" then Some InfoLevel
  else if String.eqb text "warn" || String.eqb text "WARN"
          || String.eqb text "warning" || String.eqb text "WARNING"
  then Some WarnLevel
  else if String.eqb text "error" || String.eqb text "ERROR" then Some ErrorLevel
  else if String.eqb text "dpanic" || String.eqb text "DPANIC" then Some DPanicLevel
  else if String.eqb text "panic" || String.eqb text "PANIC" then Some PanicLevel
  else if String.eqb text "fatal" || String.eqb text "FATAL" then Some FatalLevel
  else None.

(** [func (l *Level) UnmarshalText(text []byte) error]: the text as
    given, then its lower-cased form.  [Some l] is a [nil] error with
    [*l] set, [None] the "unrecognized level" error. *)
Definition UnmarshalText (text : string) : option Level :=
  match unmarshalText text with
  | Some l => Some l
  | None => unmarshalText (ToLower text)
  end.

(** [func (l Level) Enabled(lvl Level) bool] *)
Definition Enabled (l lvl : Level) : bool := l <=? lvl.

End zapcore.

(** ** options.go *)

Record Options := mkOptions {
  OutputPaths : list string;
  ErrorOutputPaths : list string;
  Level : string;
  Format : string;
  DisableCaller : bool;
  DisableStacktrace : bool;
  Filename : string;
  MaxSize : Z;
  MaxAge : Z;
  MaxBackups : Z;
  Compress : bool;
  Development : bool
}.

(** [type Option func(o *Options)]: the pointee before, the pointee after. *)
Definition Option := Options -> Options.

Definition NewOptions : Options :=
  {| OutputPaths := ["stdout"];
     ErrorOutputPaths := ["stderr"];
     Level := "info";
     Format := "console";
     DisableCaller := false;
     DisableStacktrace := false;
     Filename := "";
     MaxSize := 0;
     MaxAge := 0;
     MaxBackups := 0;
     Compress := false;
     Development := false |}.

Definition set_OutputPaths (v : list string) (o : Options) : Options :=
  mkOptions v (ErrorOutputPaths o) (Level o) (Format o) (DisableCaller o)
    (DisableStacktrace o) (Filename o) (MaxSize o) (MaxAge o) (MaxBackups o)
    (Compress o) (Development o).
Definition set_ErrorOutputPaths (v : list string) (o : Options) : Options :=
  mkOptions (OutputPaths o) v (Level o) (Format o) (DisableCaller o)
    (DisableStacktrace o) (Filename o) (MaxSize o) (MaxAge o) (MaxBackups o)
    (Compress o) (Development o).
Definition set_Level (v : string) (o : Options) : Options :=
  mkOptions (OutputPaths o) (ErrorOutputPaths o) v (Format o) (DisableCaller o)
    (DisableStacktrace o) (Filename o) (MaxSize o) (MaxAge o) (MaxBackups o)
    (Compress o) (Development o).
Definition set_Format (v : string) (o : Options) : Options :=
  mkOptions (OutputPaths o) (ErrorOutputPaths o) (Level o) v (DisableCaller o)
    (DisableStacktrace o) (Filename o) (MaxSize o) (MaxAge o) (MaxBackups o)
    (Compress o) (Development o).
Definition set_DisableCaller (v : bool) (o : Options) : Options :=
  mkOptions (OutputPaths o) (ErrorOutputPaths o) (Level o) (Format o) v
    (DisableStacktrace o) (Filename o) (MaxSize o) (MaxAge o) (MaxBackups o)
    (Compress o) (Development o).
Definition set_DisableStacktrace (v : bool) (o : Options) : Options :=
  mkOptions (OutputPaths o) (ErrorOutputPaths o) (Level o) (Format o)
    (DisableCaller o) v (Filename o) (MaxSize o) (MaxAge o) (MaxBackups o)
    (Compress o) (Development o).
Definition set_Filename (v : string) (o : Options) : Options :=
  mkOptions (OutputPaths o) (ErrorOutputPaths o) (Level o) (Format o)
    (DisableCaller o) (DisableStacktrace o) v (MaxSize o) (MaxAge o)
    (MaxBackups o) (Compress o) (Development o).
Definition set_MaxSize (v : Z) (o : Options) : Options :=
  mkOptions (OutputPaths o) (ErrorOutputPaths o) (Level o) (Format o)
    (DisableCaller o) (DisableStacktrace o) (Filename o) v (MaxAge o)
    (MaxBackups o) (Compress o) (Development o).
Definition set_MaxAge (v : Z) (o : Options) : Options :=
  mkOptions (OutputPaths o) (ErrorOutputPaths o) (Level o) (Format o)
    (DisableCaller o) (DisableStacktrace o) (Filename o) (MaxSize o) v
    (MaxBackups o) (Compress o) (Development o).
Definition set_MaxBackups (v : Z) (o : Options) : Options :=
  mkOptions (OutputPaths o) (ErrorOutputPaths o) (Level o) (Format o)
    (DisableCaller o) (DisableStacktrace o) (Filename o) (MaxSize o) (MaxAge o)
    v (Compress o) (Development o).
Definition set_Compress (v : bool) (o : Options) : Options :=
  mkOptions (OutputPaths o) (ErrorOutputPaths o) (Level o) (Format o)
    (DisableCaller o) (DisableStacktrace o) (Filename o) (MaxSize o) (MaxAge o)
    (MaxBackups o) v (Development o).
Definition set_Development (v : bool) (o : Options) : Options :=
  mkOptions (OutputPaths o) (ErrorOutputPaths o) (Level o) (Format o)
    (DisableCaller o) (DisableStacktrace o) (Filename o) (MaxSize o) (MaxAge o)
    (MaxBackups o) (Compress o) v.

(** [func (o *Options) Apply(opts ...Option)] *)
Definition Apply (opts : list Option) (o : Options) : Options :=
  fold_left (fun acc opt => opt acc) opts o.

(** [WithLevel]: the level is assigned when the parser returns no error. *)
Definition WithLevel (level : string) : Option :=
  fun o =>
    match zapcore.UnmarshalText level with
    | Some _ => set_Level level o
    | None => o
    end.

Definition WithFormat (format : string) : Option := set_Format format.
Definition WithOutputPaths (paths : list string) : Option := set_OutputPaths paths.
Definition WithErrorOutputPaths (paths : list string) : Option :=
  set_ErrorOutputPaths paths.
Definition WithDisableCaller (disable : bool) : Option := set_DisableCaller disable.
Definition WithDisableStacktrace (disable : bool) : Option :=
  set_DisableStacktrace disable.
Definition WithFilename (filename : string) : Option := set_Filename filename.
Definition WithMaxSize (maxSize : Z) : Option := set_MaxSize maxSize.
Definition WithMaxAge (maxAge : Z) : Option := set_MaxAge maxAge.
Definition WithMaxBackups (maxBackups : Z) : Option := set_MaxBackups maxBackups.
Definition WithCompress (compress : bool) : Option := set_Compress compress.
Definition WithDevelopment (development : bool) : Option :=
  set_Development development.

(** Go's [error]: [None] is [nil], [Some msg] an error with that text. *)
Definition error := option string.

(** [%d] of [fmt.Errorf] on an [int]. *)
Definition fmt_d (x : Z) : string :=
  DecimalString.NilEmpty.string_of_int (Z.to_int x).

(** [LogConfigProvider]: the twelve getters. *)
Class LogConfigProvider (P : Type) := {
  GetLevel : P -> string;
  GetFormat : P -> string;
  GetOutputPaths : P -> list string;
  GetErrorOutputPaths : P -> list string;
  GetDisableCaller : P -> bool;
  GetDisableStacktrace : P -> bool;
  GetFilename : P -> string;
  GetMaxSize : P -> Z;
  GetMaxAge : P -> Z;
  GetMaxBackups : P -> Z;
  GetCompress : P -> bool;
  GetDevelopment : P -> bool
}.

(** [ToLogOptionsFromConfig]: [None] is the [nil] interface value. *)
Definition ToLogOptionsFromConfig {P} `{LogConfigProvider P}
    (cfg : option P) : Options :=
  match cfg with
  | None => NewOptions
  | Some cfg =>
      let opts := NewOptions in
      let opts := set_Level (GetLevel cfg) opts in
      let opts := set_Format (GetFormat cfg) opts in
      let opts := set_OutputPaths (GetOutputPaths cfg) opts in
      let opts := set_ErrorOutputPaths (GetErrorOutputPaths cfg) opts in
      let opts := set_DisableCaller (GetDisableCaller cfg) opts in
      let opts := set_DisableStacktrace (GetDisableStacktrace cfg) opts in
      let opts := set_Filename (GetFilename cfg) opts in
      let opts := set_MaxSize (GetMaxSize cfg) opts in
      let opts := set_MaxAge (GetMaxAge cfg) opts in
      let opts := set_MaxBackups (GetMaxBackups cfg) opts in
      let opts := set_Compress (GetCompress cfg) opts in
      let opts := set_Development (GetDevelopment cfg) opts in
      opts
  end.

Module Config.

(** [type Config struct] *)
Record t := mk {
  Level : string;
  Format : string;
  OutputPaths : list string;
  ErrorOutputPaths : list string;
  DisableCaller : bool;
  DisableStacktrace : bool;
  Filename : string;
  MaxSize : Z;
  MaxAge : Z;
  MaxBackups : Z;
  Compress : bool;
  Development : bool
}.

#[global] Instance provider : LogConfigProvider t := {|
  GetLevel := Level;
  GetFormat := Format;
  GetOutputPaths := OutputPaths;
  GetErrorOutputPaths := ErrorOutputPaths;
  GetDisableCaller := DisableCaller;
  GetDisableStacktrace := DisableStacktrace;
  GetFilename := Filename;
  GetMaxSize := MaxSize;
  GetMaxAge := MaxAge;
  GetMaxBackups := MaxBackups;
  GetCompress := Compress;
  GetDevelopment := Development
|}.

(** The two lookup tables of [Validate], as Go maps. *)
Definition validLevels : gmap string bool :=
  <["debug" := true]> (<["info" := true]> (<["warn" := true]>
  (<["error" := true]> (<["dpanic" := true]> (<["panic" := true]>
  (<["fatal" := true]> ∅)))))).

Definition validFormats : gmap string bool :=
  <["json" := true]> (<["console" := true]> ∅).

(** Indexing a [map[string]bool]: the zero value for a missing key. *)
Definition index (m : gmap string bool) (k : string) : bool :=
  default false (m !! k).

(** [func (c *Config) Validate() error]: [None] is the [nil] receiver. *)
Definition Validate (c : option t) : error :=
  match c with
  | None => Some "log config cannot be nil"
  | Some c =>
      if negb (String.eqb (Level c) "") && negb (index validLevels (Level c))
      then Some ("log.level must be one of: debug, info, warn, error, dpanic, panic, fatal, got "
                 +:+ Level c)
      else if negb (String.eqb (Format c) "")
              && negb (index validFormats (Format c))
      then Some ("log.format must be one of: json, console, got " +:+ Format c)
      else if MaxSize c <? 0
      then Some ("log.max_size must be non-negative, got " +:+ fmt_d (MaxSize c))
      else if MaxAge c <? 0
      then Some ("log.max_age must be non-negative, got " +:+ fmt_d (MaxAge c))
      else if MaxBackups c <? 0
      then Some ("log.max_backups must be non-negative, got "
                 +:+ fmt_d (MaxBackups c))
      else None
  end.

(** [func (c *Config) ToOptions() *Options] *)
Definition ToOptions (c : option t) : Options :=
  match c with
  | None => NewOptions
  | Some c => ToLogOptionsFromConfig (Some c)
  end.

End Config.


(** ** log.go: sinks and the logger object *)

(** The write syncers the factory can produce: the two console streams
    and a [lumberjack.Logger] with the rotation knobs it was given. *)
Inductive WriteSyncer :=
| Stdout
| Stderr
| Lumberjack (filename : string) (maxSize maxBackups maxAge : Z) (compress : bool).

#[export] Instance WriteSyncer_eq_dec : EqDecision WriteSyncer.
Proof. solve_decision. Defined.

Inductive Encoder := JSONEncoder | ConsoleEncoder.

(** [zap.Field], for the string fields this package creates. *)
Record Field := zap_String { Key : string; StringVal : string }.

(** [zap.Logger] with its [ioCore] inlined.  [core_out] is the
    [NewMultiWriteSyncer] of the listed sinks: a write goes to each. *)
Record Logger := mkLogger {
  core_enc : Encoder;
  core_out : list WriteSyncer;
  core_level : zapcore.Level;
  core_fields : list Field;
  errorOutput : list WriteSyncer;
  addCaller : bool;
  addStack : option zapcore.Level;
  development : bool
}.

(** The loop body shared by [getWriteSyncer] and [getErrorWriteSyncer]:
    [consoleWriters] is the [map[string]bool] of streams already added. *)
Definition console_step (st : list WriteSyncer * gmap string bool)
    (path : string) : list WriteSyncer * gmap string bool :=
  let '(writers, consoleWriters) := st in
  let lowerPath := ToLower path in
  match consoleWriters !! lowerPath with
  | Some _ => st
  | None =>
      if String.eqb lowerPath "stdout"
      then (writers ++ [Stdout], <[lowerPath := true]> consoleWriters)
      else if String.eqb lowerPath "stderr"
      then (writers ++ [Stderr], <[lowerPath := true]> consoleWriters)
      else st
  end.

Definition getWriteSyncer (opts : Options) : list WriteSyncer :=
  let writers : list WriteSyncer := [] in
  let writers :=
    if negb (String.eqb (Filename opts) "")
    then writers ++ [Lumberjack (Filename opts) (MaxSize opts) (MaxBackups opts)
                       (MaxAge opts) (Compress opts)]
    else writers in
  fst (fold_left console_step (OutputPaths opts) (writers, ∅)).

Definition getErrorWriteSyncer (opts : Options) : list WriteSyncer :=
  let writers := fst (fold_left console_step (ErrorOutputPaths opts) ([], ∅)) in
  if Nat.eqb (List.length writers) 0 then writers ++ [Stderr] else writers.

(** [func New(opts *Options) *zap.Logger]: the options as the call
    leaves them, and the logger object it builds. *)
Definition New_body (opts : Options) : Options * Logger :=
  let opts :=
    if Development opts then
      let opts :=
        if String.eqb (Level opts) "info" then set_Level "debug" opts else opts in
      let opts :=
        if DisableCaller opts then set_DisableCaller false opts else opts in
      opts
    else opts in
  let level :=
    match zapcore.UnmarshalText (Level opts) with
    | Some l => l
    | None => zapcore.InfoLevel
    end in
  let encoder :=
    if String.eqb (Format opts) "json" then JSONEncoder else ConsoleEncoder in
  let ws := getWriteSyncer opts in
  let errorWS := getErrorWriteSyncer opts in
  let stack :=
    if negb (DisableStacktrace opts)
    then Some (if Development opts then zapcore.WarnLevel else zapcore.ErrorLevel)
    else None in
  (opts,
   {| core_enc := encoder;
      core_out := ws;
      core_level := level;
      core_fields := [];
      errorOutput := errorWS;
      addCaller := negb (DisableCaller opts);
      addStack := stack;
      development := Development opts |}).

(** ** The package state

    [heap] holds the [zap.Logger] objects allocated so far, a
    [*zap.Logger] is an index into it; [std] is the package variable;
    [output] is everything the sinks have received.  The mutex [mu]
    only orders concurrent [Init] calls and has no sequential effect. *)

Definition ptr := nat.

Record Entry := mkEntry {
  e_level : zapcore.Level;
  e_msg : string;
  e_fields : list Field;
  e_caller : bool;
  e_stack : bool;
  e_enc : Encoder
}.

Record World := mkWorld {
  heap : list Logger;
  std : ptr;
  output : list (WriteSyncer * Entry)
}.

Definition alloc (g : Logger) (w : World) : ptr * World :=
  (List.length (heap w), mkWorld (heap w ++ [g]) (std w) (output w)).

Definition New (opts : Options) (w : World) : (Options * ptr) * World :=
  let '(opts', g) := New_body opts in
  let '(l, w') := alloc g w in
  ((opts', l), w').

(** [func init()] *)
Definition init : World :=
  let '((_, l), w) := New NewOptions (mkWorld [] 0%nat []) in
  mkWorld (heap w) l (output w).

(** [func Init(opts ...Option)] *)
Definition Init (opts : list Option) (w : World) : World :=
  let o := NewOptions in
  let o := Apply opts o in
  let '((_, l), w') := New o w in
  mkWorld (heap w') l (output w').

Definition GetLogger (w : World) : ptr := std w.

(** The entry a logger hands to its core for one call.  [e_caller] and
    [e_stack] say whether the entry carries the caller annotation and a
    stack trace; the file and line of the calling statement itself are
    not recorded, so entries are described up to the call site. *)
Definition entry_of (g : Logger) (lvl : zapcore.Level) (msg : string)
    (fields : list Field) : Entry :=
  {| e_level := lvl;
     e_msg := msg;
     e_fields := core_fields g ++ fields;
     e_caller := addCaller g;
     e_stack := match addStack g with
                | Some s => zapcore.Enabled s lvl
                | None => false
                end;
     e_enc := core_enc g |}.

(** [zap.Logger.Debug/Info/Warn/Error]: the entry is written to every
    sink of the core when the core's level enables it.  These four
    severities return normally; [l] is a logger of the heap. *)
Definition Logger_log (l : ptr) (lvl : zapcore.Level) (msg : string)
    (fields : list Field) (w : World) : World :=
  match heap w !! l with
  | Some g =>
      if zapcore.Enabled (core_level g) lvl
      then mkWorld (heap w) (std w)
             (output w ++ map (fun s => (s, entry_of g lvl msg fields)) (core_out g))
      else w
  | None => w
  end.

Definition Logger_Debug l := Logger_log l zapcore.DebugLevel.
Definition Logger_Info l := Logger_log l zapcore.InfoLevel.
Definition Logger_Warn l := Logger_log l zapcore.WarnLevel.
Definition Logger_Error l := Logger_log l zapcore.ErrorLevel.

(** [log.clone()] followed by [core.With(fields)]: a copy of the logger
    whose core carries the extra fields. *)
Definition clone_with (g : Logger) (fields : list Field) : Logger :=
  mkLogger (core_enc g) (core_out g) (core_level g) (core_fields g ++ fields)
    (errorOutput g) (addCaller g) (addStack g) (development g).

(** [zap.Logger.With]: no fields, the receiver itself; otherwise a
    newly allocated clone. *)
Definition Logger_With (l : ptr) (fields : list Field) (w : World) : ptr * World :=
  match fields with
  | [] => (l, w)
  | _ =>
      match heap w !! l with
      | Some g => alloc (clone_with g fields) w
      | None => (l, w)
      end
  end.

(** The package-level functions delegate to [std]. *)
Definition Debug (msg : string) (fields : list Field) (w : World) : World :=
  Logger_Debug (std w) msg fields w.
Definition Info (msg : string) (fields : list Field) (w : World) : World :=
  Logger_Info (std w) msg fields w.
Definition Warn (msg : string) (fields : list Field) (w : World) : World :=
  Logger_Warn (std w) msg fields w.
Definition Error (msg : string) (fields : list Field) (w : World) : World :=
  Logger_Error (std w) msg fields w.

(** ** Contexts and the tracing span *)

(** [trace.SpanContext]: the 16-byte trace id and the 8-byte span id,
    read as big-endian numbers. *)
Record SpanContext := mkSpanContext { traceID : N; spanID : N }.

(** [SpanContext.IsValid]: both ids differ from the all-zero id. *)
Definition IsValid (sc : SpanContext) : bool :=
  (negb (traceID sc =? 0) && negb (spanID sc =? 0))%N.

Definition hex_digit (d : N) : ascii :=
  ascii_of_N (if (d <? 10)%N then 48 + d else 87 + d)%N.

Fixpoint hex_fixed (digits : nat) (n : N) (acc : string) : string :=
  match digits with
  | O => acc
  | S k => hex_fixed k (n / 16)%N (String (hex_digit (n mod 16)%N) acc)
  end.

(** [TraceID.String]: the 32 lower-case hex digits of the 16 bytes. *)
Definition TraceID_String (t : N) : string := hex_fixed 32 t "".

(** Context keys: this package's [contextKey] strings, the private key
    under which the tracing library keeps the current span, and the
    keys of other packages. *)
Inductive key :=
| contextKey (s : string)
| currentSpanKey
| foreignKey (n : nat).

#[export] Instance key_eq_dec : EqDecision key.
Proof. solve_decision. Defined.

Definition traceIDKey : key := contextKey "traceID".
Definition requestIDKey : key := contextKey "requestID".

(** Values of type [any] stored in a context. *)
Inductive any :=
| AString (s : string)
| ASpan (sc : SpanContext)
| AOther (n : nat).

(** A non-nil [context.Context]. *)
Inductive Context :=
| Background
| WithValue (parent : Context) (k : key) (v : any).

(** [ctx.Value(k)]: the innermost binding of [k]. *)
Fixpoint Value (ctx : Context) (k : key) : option any :=
  match ctx with
  | Background => None
  | WithValue parent k' v => if decide (k' = k) then Some v else Value parent k
  end.

Definition ContextWithTraceID (ctx : Context) (traceID : string) : Context :=
  WithValue ctx traceIDKey (AString traceID).

Definition ContextWithRequestID (ctx : Context) (requestID : string) : Context :=
  WithValue ctx requestIDKey (AString requestID).

(** [trace.ContextWithSpan] *)
Definition ContextWithSpan (ctx : Context) (sc : SpanContext) : Context :=
  WithValue ctx currentSpanKey (ASpan sc).

(** [trace.SpanFromContext(ctx).SpanContext()]: the stored span, or the
    no-op span with its zero span context. *)
Definition SpanFromContext (ctx : Context) : SpanContext :=
  match Value ctx currentSpanKey with
  | Some (ASpan sc) => sc
  | _ => mkSpanContext 0 0
  end.

(** The type assertion [ctx.Value(k).(string)]. *)
Definition Value_string (ctx : Context) (k : key) : option string :=
  match Value ctx k with
  | Some (AString s) => Some s
  | _ => None
  end.

Definition extractTraceID (ctx : Context) : string :=
  if IsValid (SpanFromContext ctx)
  then TraceID_String (traceID (SpanFromContext ctx))
  else match Value_string ctx traceIDKey with
       | Some traceID => if negb (String.eqb traceID "") then traceID else ""
       | None => ""
       end.

(** [FromContext]: [None] is the [nil] context. *)
Definition FromContext (ctx : option Context) (w : World) : ptr * World :=
  match ctx with
  | None => (std w, w)
  | Some ctx =>
      let fields : list Field := [] in
      let traceID := extractTraceID ctx in
      let fields :=
        if negb (String.eqb traceID "")
        then fields ++ [zap_String "traceID" traceID] else fields in
      let fields :=
        match Value_string ctx requestIDKey with
        | Some requestID =>
            if negb (String.eqb requestID "")
            then fields ++ [zap_String "requestID" requestID] else fields
        | None => fields
        end in
      if Nat.eqb (List.length fields) 0 then (std w, w)
      else Logger_With (std w) fields w
  end.

(** [TraceIDFromContext]: calling [Value] on a [nil] context is a
    run-time panic, rendered as [None]. *)
Definition TraceIDFromContext (ctx : option Context) : option string :=
  match ctx with
  | None => None
  | Some ctx => Some (extractTraceID ctx)
  end.

Definition RequestIDFromContext (ctx : option Context) : string :=
  match ctx with
  | None => ""
  | Some ctx =>
      match Value_string ctx requestIDKey with
      | Some requestID => requestID
      | None => ""
      end
  end.

(** ** The gin writer adapters *)

Record zapWriter := mkZapWriter { logger : ptr; level : zapcore.Level }.

Definition GinWriter (w : World) : zapWriter :=
  {| logger := std w; level := zapcore.InfoLevel |}.

Definition GinErrorWriter (w : World) : zapWriter :=
  {| logger := std w; level := zapcore.ErrorLevel |}.

(** The message of [Write]: [p] without its last byte when that byte is
    a newline. *)
Definition Write_msg (p : string) : string :=
  let msg := p in
  let len := String.length msg in
  if (Nat.ltb 0 len
      && match String.get (len - 1) msg with
         | Some c => Ascii.eqb c "010"%char
         | None => false
         end)%bool
  then String.substring 0 (len - 1) msg
  else msg.

(** [func (w *zapWriter) Write(p []byte) (n int, err error)] *)
Definition Write (zw : zapWriter) (p : string) (w : World)
    : (Z * error) * World :=
  let msg := Write_msg p in
  let w' :=
    if level zw =? zapcore.DebugLevel then Logger_Debug (logger zw) msg [] w
    else if level zw =? zapcore.InfoLevel then Logger_Info (logger zw) msg [] w
    else if level zw =? zapcore.WarnLevel then Logger_Warn (logger zw) msg [] w
    else if level zw =? zapcore.ErrorLevel then Logger_Error (logger zw) msg [] w
    else Logger_Info (logger zw) msg [] w in
  ((Z.of_nat (String.length p), None), w').

(** ** Vocabulary of the statements *)

(** The severities as the package documents them. *)
Definition severities : list string :=
  ["debug"; "info"; "warn"; "error"; "dpanic"; "panic"; "fatal"].

(** The lower-case spellings the level parser knows: the severities and
    "warning", its second name for "warn"; and their upper-case forms. *)
Definition level_names : list string :=
  ["debug"; "info"; "warn"; "warning"; "error"; "dpanic"; "panic"; "fatal"].

Definition upper_level_names : list string :=
  ["DEBUG"; "INFO"; "WARN"; "WARNING"; "ERROR"; "DPANIC"; "PANIC"; "FATAL"].

Definition formats : list string := ["json"; "console"].

(** The level [New] gives the core for a level string. *)
Definition level_or_info (s : string) : zapcore.Level :=
  match zapcore.UnmarshalText s with
  | Some l => l
  | None => zapcore.InfoLevel
  end.

(** The loop invariant: [c] are the console sinks added so far, [m] the
    map of stream names, [seen] the destinations already visited. *)
Definition console_inv (seen : list string) (c : list WriteSyncer)
    (m : gmap string bool) : Prop :=
  NoDup c
  /\ (forall s, In s c -> s = Stdout \/ s = Stderr)
  /\ (In Stdout c <-> exists p, In p seen /\ ToLower p = "stdout")
  /\ (In Stderr c <-> exists p, In p seen /\ ToLower p = "stderr")
  /\ (is_Some (m !! "stdout") <-> In Stdout c)
  /\ (is_Some (m !! "stderr") <-> In Stderr c)
  /\ (forall k, is_Some (m !! k) -> k = "stdout" \/ k = "stderr").

(** The rotating-file sink of [getWriteSyncer]: it depends on the
    filename and the rotation knobs only. *)
Definition file_sink (opts : Options) : list WriteSyncer :=
  if String.eqb (Filename opts) "" then []
  else [Lumberjack (Filename opts) (MaxSize opts) (MaxBackups opts) (MaxAge opts)
          (Compress opts)].

Definition newline : string := String "010" "".

(** The severity [Write] logs at: the adapter's level when it is one
    of the four the switch lists, "info" otherwise. *)
Definition Write_level (zw : zapWriter) : zapcore.Level :=
  if (level zw =? zapcore.DebugLevel) || (level zw =? zapcore.WarnLevel)
     || (level zw =? zapcore.ErrorLevel)
  then level zw else zapcore.InfoLevel.

(** The fields [FromContext] binds for a context: the extracted trace
    id when it is non-empty, then the string under the request-id key
    when it is non-empty. *)
Definition context_fields (ctx : Context) : list Field :=
  (if String.eqb (extractTraceID ctx) "" then []
   else [zap_String "traceID" (extractTraceID ctx)])
  ++ match Value ctx requestIDKey with
     | Some (AString r) =>
         if String.eqb r "" then [] else [zap_String "requestID" r]
     | _ => []
     end.

Ltac split_conj := repeat match goal with |- _ /\ _ => split end.

(** The stream a destination name stands for, if any. *)
Definition classify (path : string) : option WriteSyncer :=
  if String.eqb (ToLower path) "stdout" then Some Stdout
  else if String.eqb (ToLower path) "stderr" then Some Stderr
  else None.

(** The streams named by [paths], each at its first mention, leaving
    out those already in [seen]. *)
Fixpoint first_mentions (seen : list WriteSyncer) (paths : list string)
    : list WriteSyncer :=
  match paths with
  | [] => []
  | p :: rest =>
      match classify p with
      | Some s =>
          if decide (s ∈ seen) then first_mentions seen rest
          else s :: first_mentions (s :: seen) rest
      | None => first_mentions seen rest
      end
  end.

(** The calls of the package's twelve option constructors. *)
Inductive with_call :=
| CWithLevel (level : string)
| CWithFormat (format : string)
| CWithOutputPaths (paths : list string)
| CWithErrorOutputPaths (paths : list string)
| CWithDisableCaller (disable : bool)
| CWithDisableStacktrace (disable : bool)
| CWithFilename (filename : string)
| CWithMaxSize (maxSize : Z)
| CWithMaxAge (maxAge : Z)
| CWithMaxBackups (maxBackups : Z)
| CWithCompress (compress : bool)
| CWithDevelopment (development : bool).

Definition option_of (c : with_call) : Option :=
  match c with
  | CWithLevel level => WithLevel level
  | CWithFormat format => WithFormat format
  | CWithOutputPaths paths => WithOutputPaths paths
  | CWithErrorOutputPaths paths => WithErrorOutputPaths paths
  | CWithDisableCaller disable => WithDisableCaller disable
  | CWithDisableStacktrace disable => WithDisableStacktrace disable
  | CWithFilename filename => WithFilename filename
  | CWithMaxSize maxSize => WithMaxSize maxSize
  | CWithMaxAge maxAge => WithMaxAge maxAge
  | CWithMaxBackups maxBackups => WithMaxBackups maxBackups
  | CWithCompress compress => WithCompress compress
  | CWithDevelopment development => WithDevelopment development
  end.

(** The package variable [std] points to a logger of the heap. *)
Definition std_valid (w : World) : Prop := is_Some (heap w !! std w).

(** One use of the package by a client: a re-initialisation, a call of
    a package-level logging function, a call of [FromContext], a call
    of a logging method on some logger, or a write through an adapter. *)
Inductive call :=
| CallInit (opts : list Option)
| CallDebug (msg : string) (fields : list Field)
| CallInfo (msg : string) (fields : list Field)
| CallWarn (msg : string) (fields : list Field)
| CallError (msg : string) (fields : list Field)
| CallFromContext (ctx : option Context)
| CallLogger (l : ptr) (lvl : zapcore.Level) (msg : string) (fields : list Field)
| CallWrite (zw : zapWriter) (p : string).

Definition run_call (c : call) (w : World) : World :=
  match c with
  | CallInit opts => Init opts w
  | CallDebug msg fields => Debug msg fields w
  | CallInfo msg fields => Info msg fields w
  | CallWarn msg fields => Warn msg fields w
  | CallError msg fields => Error msg fields w
  | CallFromContext ctx => snd (FromContext ctx w)
  | CallLogger l lvl msg fields => Logger_log l lvl msg fields w
  | CallWrite zw p => snd (Write zw p w)
  end.

Definition run (calls : list call) (w : World) : World :=
  fold_left (fun acc c => run_call c acc) calls w.

Definition is_Init (c : call) : bool :=
  match c with
  | CallInit _ => true
  | _ => false
  end.

(** The map of the loop records the streams of [seen]. *)
Definition map_records (m : gmap string bool) (seen : list WriteSyncer) : Prop :=
  (is_Some (m !! "stdout") <-> Stdout ∈ seen)
  /\ (is_Some (m !! "stderr") <-> Stderr ∈ seen)
  /\ (forall k, is_Some (m !! k) -> k = "stdout" \/ k = "stderr").

(** What one call may change. *)
Definition call_frame (c : call) (w w' : World) : Prop :=
  (exists ext, heap w' = heap w ++ ext)
  /\ (exists ext, output w' = output w ++ ext)
  /\ (is_Init c = false -> std w' = std w)
  /\ (std_valid w -> std_valid w').

(** * Properties *)

(** ** Running the model on the inputs of the package's tests *)

Example NewOptions_defaults :
  Level NewOptions = "info" /\ Format NewOptions = "console"
  /\ OutputPaths NewOptions = ["stdout"] /\ ErrorOutputPaths NewOptions = ["stderr"].
Proof. repeat split. Qed.

Example Apply_in_call_order :
  let o := Apply [WithLevel "error"; WithFormat "json"; WithFilename "error.log"]
             NewOptions in
  Level o = "error" /\ Format o = "json" /\ Filename o = "error.log".
Proof. vm_compute. repeat split. Qed.

Example WithLevel_invalid_level_kept :
  Level (WithLevel "invalid-level" NewOptions) = "info".
Proof. vm_compute. reflexivity. Qed.

Example Validate_messages :
  Config.Validate
    (Some (Config.mk "bogus" "" [] [] false false "" 0 (-7) 0 false false)) =
  Some "log.level must be one of: debug, info, warn, error, dpanic, panic, fatal, got bogus"
  /\ Config.Validate
       (Some (Config.mk "warn" "json" [] [] false false "" 0 (-7) 0 false false)) =
     Some "log.max_age must be non-negative, got -7".
Proof. split; vm_compute; reflexivity. Qed.

Example TraceID_String_hex :
  TraceID_String 0x4bf92f3577b34da6a3ce929d0e0e4736 = "4bf92f3577b34da6a3ce929d0e0e4736".
Proof. vm_compute. reflexivity. Qed.

Example Write_on_default_logger :
  Write (GinWriter init) ("hello" +:+ String "010" "") init =
  ((6, None),
   mkWorld (heap init) 0%nat
     [(Stdout, mkEntry zapcore.InfoLevel "hello" [] true false ConsoleEncoder)]).
Proof. vm_compute. reflexivity. Qed.

Example WithLevel_warning_is_a_level :
  Level (WithLevel "warning" NewOptions) = "warning"
  /\ core_level (snd (New_body (WithLevel "WARNING" NewOptions))) = zapcore.WarnLevel
  /\ Level (WithLevel "warnings" NewOptions) = "info".
Proof. vm_compute. repeat split. Qed.

Example Init_WithLevel_warn_filters :
  let w := Init [WithLevel "warn"] init in
  output (Debug "d" [] w) = [] /\ output (Info "i" [] w) = []
  /\ List.length (output (Warn "w" [] w)) = 1%nat
  /\ List.length (output (Error "e" [] w)) = 1%nat.
Proof. vm_compute. repeat split. Qed.

(** ** Lower-casing and the level parser *)

Lemma lower_byte_idem (c : ascii) : lower_byte (lower_byte c) = lower_byte c.
Proof.
  destruct c as [[] [] [] [] [] [] [] []]; vm_compute; reflexivity.
Qed.

Lemma ToLower_idem (s : string) : ToLower (ToLower s) = ToLower s.
Proof.
  induction s as [|c r IH]; simpl; [reflexivity|].
  now rewrite lower_byte_idem, IH.
Qed.

Lemma ToLower_empty (s : string) : ToLower s = "" -> s = "".
Proof. destruct s; simpl; [reflexivity | discriminate]. Qed.

Lemma unmarshalText_Some (text : string) :
  is_Some (zapcore.unmarshalText text) <->
  text = "" \/ In text level_names \/ In text upper_level_names.
Proof.
  unfold zapcore.unmarshalText, level_names, upper_level_names.
  repeat match goal with
  | |- context [String.eqb text ?k] =>
      destruct (String.eqb_spec text k) as [->|?]
  end; simpl; split; intros H;
  try (eexists; reflexivity); try (inversion H; discriminate);
  try tauto; try (exfalso; (intuition congruence)).
Qed.

Lemma UnmarshalText_Some (text : string) :
  is_Some (zapcore.UnmarshalText text) <->
  text = "" \/ In (ToLower text) level_names.
Proof.
  unfold zapcore.UnmarshalText. split.
  - destruct (zapcore.unmarshalText text) eqn:E.
    + intros _.
      assert (Hs : is_Some (zapcore.unmarshalText text)) by (rewrite E; eauto).
      apply unmarshalText_Some in Hs.
      destruct Hs as [->|[Hs|Hs]]; [now left| |];
        right; simpl in Hs; intuition (subst; vm_compute; tauto).
    + intros Hs. apply unmarshalText_Some in Hs.
      destruct Hs as [Hs|[Hs|Hs]].
      * left. now apply ToLower_empty.
      * now right.
      * exfalso. pose proof (ToLower_idem text) as Hi.
        simpl in Hs.
        repeat (destruct Hs as [Hs|Hs];
                [rewrite <- Hs in Hi; vm_compute in Hi; discriminate|]).
        exact Hs.
  - intros H. destruct (zapcore.unmarshalText text) eqn:E; [eauto|].
    apply unmarshalText_Some. destruct H as [->|H]; [|tauto].
    vm_compute in E. discriminate.
Qed.

(** ** C1: [WithLevel] *)

(** C1, as stated, fails: ["INFO"] is none of the seven lower-case
    severities, yet [WithLevel "INFO"] overwrites the level ["info"] of
    the default options. *)
Lemma WithLevel_upper_case_is_stored :
  ~ In "INFO" severities
  /\ Level (WithLevel "INFO" NewOptions) = "INFO"
  /\ Level (WithLevel "INFO" NewOptions) <> Level NewOptions.
Proof.
  split; [|split].
  - simpl. intuition discriminate.
  - vm_compute. reflexivity.
  - vm_compute. discriminate.
Qed.

(** C1 (amended): for every ASCII string, [WithLevel] stores the string
    as given exactly when it is empty or is, up to letter case, one of
    the seven severities or "warning", touching no other field; for
    every other string the whole configuration is left as it was. *)
Theorem WithLevel_stores_what_the_parser_accepts
    (level : string) (o : Options) (Hascii : isASCII level = true) :
  (level = "" \/ In (ToLower level) level_names ->
     WithLevel level o = set_Level level o /\ Level (WithLevel level o) = level)
  /\ (~ (level = "" \/ In (ToLower level) level_names) -> WithLevel level o = o).
Proof.
  unfold WithLevel. split; intros H.
  - apply UnmarshalText_Some in H. destruct H as [l ->]. split; reflexivity.
  - destruct (zapcore.UnmarshalText level) eqn:E; [|reflexivity].
    exfalso. apply H, UnmarshalText_Some. rewrite E. eauto.
Qed.

Lemma WithLevel_stores_what_the_parser_accepts_witness :
  isASCII "Warning" = true
  /\ Level (WithLevel "Warning" NewOptions) = "Warning"
  /\ WithLevel "no-such-level" NewOptions = NewOptions.
Proof.
  split; [reflexivity|].
  split.
  - apply (WithLevel_stores_what_the_parser_accepts "Warning" NewOptions);
      [reflexivity | right; vm_compute; tauto].
  - apply (WithLevel_stores_what_the_parser_accepts "no-such-level" NewOptions);
      [reflexivity |].
    vm_compute. intuition discriminate.
Defined.

(** ** C4: [Config.Validate] *)

Lemma validLevels_index (s : string) :
  Config.index Config.validLevels s = true <-> In s severities.
Proof.
  unfold Config.index, Config.validLevels, severities.
  repeat (rewrite lookup_insert; case_decide;
          [subst; simpl; split; [intros _; auto 10 | reflexivity]|]).
  rewrite lookup_empty. simpl. intuition (try discriminate; congruence).
Qed.

Lemma validFormats_index (s : string) :
  Config.index Config.validFormats s = true <-> In s formats.
Proof.
  unfold Config.index, Config.validFormats, formats.
  repeat (rewrite lookup_insert; case_decide;
          [subst; simpl; split; [intros _; auto 10 | reflexivity]|]).
  rewrite lookup_empty. simpl. intuition (try discriminate; congruence).
Qed.

Lemma level_guard_iff (l : string) :
  negb (String.eqb l "") && negb (Config.index Config.validLevels l) = true
  <-> l <> "" /\ ~ In l severities.
Proof.
  rewrite andb_true_iff, !negb_true_iff, String.eqb_neq.
  rewrite <- validLevels_index, not_true_iff_false. reflexivity.
Qed.

Lemma format_guard_iff (f : string) :
  negb (String.eqb f "") && negb (Config.index Config.validFormats f) = true
  <-> f <> "" /\ ~ In f formats.
Proof.
  rewrite andb_true_iff, !negb_true_iff, String.eqb_neq.
  rewrite <- validFormats_index, not_true_iff_false. reflexivity.
Qed.

(** C4, as stated, fails: a configuration whose three numeric knobs are
    all zero is still rejected when its level is not a severity. *)
Lemma Validate_rejects_bogus_level_without_negative_knob :
  let c := Config.mk "bogus" "console" ["stdout"] ["stderr"] false false ""
             0 0 0 false false in
  is_Some (Config.Validate (Some c))
  /\ ~ (Config.MaxSize c < 0 \/ Config.MaxAge c < 0 \/ Config.MaxBackups c < 0).
Proof.
  split.
  - vm_compute. eauto.
  - simpl. lia.
Qed.

(** C4 (amended): [Validate] returns an error if and only if the
    receiver is nil, or the level is non-empty and not one of the seven
    severities, or the format is non-empty and neither "json" nor
    "console", or one of MaxSize, MaxAge, MaxBackups is negative. *)
Theorem Validate_error_iff (c : option Config.t) :
  is_Some (Config.Validate c) <->
  match c with
  | None => True
  | Some c =>
      (Config.Level c <> "" /\ ~ In (Config.Level c) severities)
      \/ (Config.Format c <> "" /\ ~ In (Config.Format c) formats)
      \/ Config.MaxSize c < 0 \/ Config.MaxAge c < 0 \/ Config.MaxBackups c < 0
  end.
Proof.
  destruct c as [c|]; simpl; [|split; eauto].
  destruct (negb (String.eqb (Config.Level c) "")
            && negb (Config.index Config.validLevels (Config.Level c))) eqn:E1.
  { split; [intros _; left; apply level_guard_iff; exact E1 | eauto]. }
  destruct (negb (String.eqb (Config.Format c) "")
            && negb (Config.index Config.validFormats (Config.Format c))) eqn:E2.
  { split; [intros _; right; left; apply format_guard_iff; exact E2 | eauto]. }
  destruct (Z.ltb_spec (Config.MaxSize c) 0) as [H1|H1].
  { split; [intros _; do 2 right; left; exact H1 | eauto]. }
  destruct (Z.ltb_spec (Config.MaxAge c) 0) as [H2|H2].
  { split; [intros _; do 3 right; left; exact H2 | eauto]. }
  destruct (Z.ltb_spec (Config.MaxBackups c) 0) as [H3|H3].
  { split; [intros _; do 4 right; exact H3 | eauto]. }
  split.
  - intros [? Hv]. discriminate Hv.
  - intros [Hx|[Hx|Hx]].
    + apply level_guard_iff in Hx. congruence.
    + apply format_guard_iff in Hx. congruence.
    + lia.
Qed.

(** ** C3 and C9: what [New] does to its options and to the logger *)

Lemma New_eq (opts : Options) (w : World) :
  New opts w =
  ((fst (New_body opts), List.length (heap w)),
   mkWorld (heap w ++ [snd (New_body opts)]) (std w) (output w)).
Proof. unfold New, alloc. destruct (New_body opts). reflexivity. Qed.

Lemma lookup_fresh (g : Logger) (h : list Logger) :
  (h ++ [g]) !! List.length h = Some g.
Proof. induction h; simpl; auto. Qed.

(** C3, as stated, fails: building a logger from the default options
    with the development flag set rewrites the level of the options
    that were passed. *)
Lemma New_rewrites_the_options_in_development :
  Level (fst (fst (New (WithDevelopment true NewOptions) init))) = "debug"
  /\ fst (fst (New (WithDevelopment true NewOptions) init))
     <> WithDevelopment true NewOptions.
Proof. split; vm_compute; [reflexivity | discriminate]. Qed.

(** C3 (amended): [New] leaves the passed options unchanged when the
    development flag is unset; when it is set, the only fields it may
    rewrite are Level (from "info" to "debug") and DisableCaller (to
    false), and the ten other fields keep their values. *)
Theorem New_options_frame (opts : Options) (w : World) :
  let opts' := fst (fst (New opts w)) in
  (if Development opts
   then Level opts' = (if String.eqb (Level opts) "info" then "debug" else Level opts)
        /\ DisableCaller opts' = false
   else opts' = opts)
  /\ OutputPaths opts' = OutputPaths opts
  /\ ErrorOutputPaths opts' = ErrorOutputPaths opts
  /\ Format opts' = Format opts
  /\ DisableStacktrace opts' = DisableStacktrace opts
  /\ Filename opts' = Filename opts
  /\ MaxSize opts' = MaxSize opts
  /\ MaxAge opts' = MaxAge opts
  /\ MaxBackups opts' = MaxBackups opts
  /\ Compress opts' = Compress opts
  /\ Development opts' = Development opts.
Proof.
  rewrite New_eq. unfold New_body. simpl.
  destruct opts as [op ep lv fm dc ds fn ms ma mb cp dev]; simpl.
  destruct dev; [|repeat split].
  destruct (String.eqb lv "info"), dc; simpl; repeat split.
Qed.

(** C9: with the development flag set, [New] promotes the level to
    "debug" exactly when the configured level is "info" and keeps any
    other level, and the logger records caller information whatever
    DisableCaller says; with the flag unset the level is the configured
    one and caller information follows DisableCaller. *)
Theorem New_development_mode (opts : Options) (w : World) :
  let '((opts', l), w') := New opts w in
  exists g, heap w' !! l = Some g
  /\ development g = Development opts
  /\ if Development opts
     then Level opts' = (if String.eqb (Level opts) "info" then "debug" else Level opts)
          /\ core_level g = (if String.eqb (Level opts) "info"
                             then zapcore.DebugLevel else level_or_info (Level opts))
          /\ addCaller g = true
     else Level opts' = Level opts
          /\ core_level g = level_or_info (Level opts)
          /\ addCaller g = negb (DisableCaller opts).
Proof.
  rewrite New_eq. exists (snd (New_body opts)). simpl.
  split; [apply lookup_fresh|].
  unfold New_body, level_or_info.
  destruct opts as [op ep lv fm dc ds fn ms ma mb cp dev]; simpl.
  destruct dev; simpl; [|repeat split].
  destruct (String.eqb_spec lv "info") as [->|Hne], dc; simpl; repeat split.
Qed.

Example New_development_mode_on_info :
  core_level (snd (New_body (WithDevelopment true NewOptions))) = zapcore.DebugLevel
  /\ core_level (snd (New_body (WithLevel "warn" (WithDevelopment true NewOptions))))
     = zapcore.WarnLevel
  /\ addCaller (snd (New_body (WithDisableCaller true (WithDevelopment true NewOptions))))
     = true
  /\ addCaller (snd (New_body (WithDisableCaller true NewOptions))) = false.
Proof. vm_compute. repeat split. Qed.

(** ** C8: sink resolution for normal output *)

Lemma console_inv_init : console_inv [] [] ∅.
Proof.
  unfold console_inv. repeat split; simpl; try tauto.
  - constructor.
  - intros [p [[] _]].
  - intros [p [[] _]].
  - rewrite lookup_empty. intros [? ?]; discriminate.
  - rewrite lookup_empty. intros [? ?]; discriminate.
  - intros k. rewrite lookup_empty. intros [? ?]; discriminate.
Qed.

Lemma exists_seen_snoc (seen : list string) (p : string) (name : string) :
  (exists q, In q (seen ++ [p]) /\ ToLower q = name) <->
  (exists q, In q seen /\ ToLower q = name) \/ ToLower p = name.
Proof.
  split.
  - intros [q [Hq E]]. apply in_app_or in Hq. destruct Hq as [Hq|[->|[]]]; eauto.
  - intros [[q [Hq E]]| E].
    + exists q. split; [apply in_or_app; now left | assumption].
    + exists p. split; [apply in_or_app; right; now left | assumption].
Qed.

Lemma console_step_inv (base : list WriteSyncer) (seen : list string)
    (c : list WriteSyncer) (m : gmap string bool) (p : string) :
  console_inv seen c m ->
  exists c' m', console_step (base ++ c, m) p = (base ++ c', m')
                /\ console_inv (seen ++ [p]) c' m'.
Proof.
  intros (Hnd & Hkind & Hout & Herr & Hmout & Hmerr & Hkeys).
  unfold console_step.
  destruct (m !! ToLower p) eqn:Em.
  - exists c, m. split; [reflexivity|].
    assert (Hk : ToLower p = "stdout" \/ ToLower p = "stderr")
      by (apply Hkeys; rewrite Em; eauto).
    assert (Hs : is_Some (m !! ToLower p)) by (rewrite Em; eauto).
    unfold console_inv. rewrite !exists_seen_snoc.
    split_conj; try assumption.
    + destruct Hk as [Hk|Hk]; rewrite Hk in *; [tauto|].
      split; [tauto|]. intros [H|H]; [tauto|discriminate].
    + destruct Hk as [Hk|Hk]; rewrite Hk in *; [|tauto].
      split; [tauto|]. intros [H|H]; [tauto|discriminate].
  - destruct (String.eqb_spec (ToLower p) "stdout") as [E|E].
    + exists (c ++ [Stdout]), (<[ToLower p := true]> m).
      split; [now rewrite app_assoc|].
      assert (Hno : ~ In Stdout c).
      { intros H. apply Hmout in H. rewrite <- E, Em in H.
        destruct H; discriminate. }
      unfold console_inv. rewrite !exists_seen_snoc, E.
      split_conj.
      * apply NoDup_app. split_conj; [assumption| |repeat constructor].
        intros x Hx Hx'. apply list_elem_of_In in Hx.
        apply list_elem_of_In in Hx'. destruct Hx' as [<-|[]]. tauto.
        intros H. apply list_elem_of_In in H. destruct H.
      * intros s Hs. apply in_app_or in Hs. destruct Hs as [Hs|[<-|[]]]; auto.
      * split; [intros _; now right|]. intros _. apply in_or_app. right. now left.
      * rewrite in_app_iff. simpl. split.
        -- intros [H|[H|[]]]; [left; now apply Herr | discriminate].
        -- intros [H|H]; [|discriminate]. left. now apply Herr.
      * rewrite lookup_insert_eq, in_app_iff. simpl. split; eauto.
      * rewrite lookup_insert_ne by discriminate. rewrite in_app_iff. simpl.
        split; [tauto|]. intros [H|[H|[]]]; [tauto|discriminate].
      * intros k. rewrite lookup_insert. case_decide; [subst; auto|apply Hkeys].
    + destruct (String.eqb_spec (ToLower p) "stderr") as [E'|E'].
      * exists (c ++ [Stderr]), (<[ToLower p := true]> m).
        split; [now rewrite app_assoc|].
        assert (Hno : ~ In Stderr c).
        { intros H. apply Hmerr in H. rewrite <- E', Em in H.
          destruct H; discriminate. }
        unfold console_inv. rewrite !exists_seen_snoc, E'.
        split_conj.
        -- apply NoDup_app. split_conj; [assumption| |repeat constructor].
           intros x Hx Hx'. apply list_elem_of_In in Hx.
           apply list_elem_of_In in Hx'. destruct Hx' as [<-|[]]. tauto.
           intros H. apply list_elem_of_In in H. destruct H.
        -- intros s Hs. apply in_app_or in Hs. destruct Hs as [Hs|[<-|[]]]; auto.
        -- rewrite in_app_iff. simpl. split.
           ++ intros [H|[H|[]]]; [left; now apply Hout | discriminate].
           ++ intros [H|H]; [|discriminate]. left. now apply Hout.
        -- split; [intros _; now right|]. intros _. apply in_or_app. right. now left.
        -- rewrite lookup_insert_ne by discriminate. rewrite in_app_iff. simpl.
           split; [tauto|]. intros [H|[H|[]]]; [tauto|discriminate].
        -- rewrite lookup_insert_eq, in_app_iff. simpl. split; eauto.
        -- intros k. rewrite lookup_insert. case_decide; [subst; auto|apply Hkeys].
      * exists c, m. split; [reflexivity|].
        unfold console_inv. rewrite !exists_seen_snoc.
        split_conj; try assumption; tauto.
Qed.

Lemma console_loop_inv (base : list WriteSyncer) (paths : list string) :
  forall (seen : list string) (c : list WriteSyncer) (m : gmap string bool),
  console_inv seen c m ->
  exists c' m', fold_left console_step paths (base ++ c, m) = (base ++ c', m')
                /\ console_inv (seen ++ paths) c' m'.
Proof.
  induction paths as [|p paths IH]; intros seen c m Hinv; cbn [fold_left].
  - exists c, m. rewrite app_nil_r. auto.
  - destruct (console_step_inv base seen c m p Hinv) as (c1 & m1 & -> & H1).
    destruct (IH _ _ _ H1) as (c2 & m2 & -> & H2).
    exists c2, m2. rewrite <- app_assoc in H2. auto.
Qed.

(** C8: the normal-output sinks are the rotating-file sink, present
    exactly when a filename is configured and whatever the destination
    list holds, followed by console sinks without repetition: stdout
    exactly when some destination lower-cases to "stdout", stderr
    exactly when some destination lower-cases to "stderr", and nothing
    for any other destination name. *)
Theorem getWriteSyncer_resolution (opts : Options) :
  exists console,
    getWriteSyncer opts = file_sink opts ++ console
    /\ NoDup console
    /\ (forall s, In s console -> s = Stdout \/ s = Stderr)
    /\ (In Stdout console <->
        exists p, In p (OutputPaths opts) /\ ToLower p = "stdout")
    /\ (In Stderr console <->
        exists p, In p (OutputPaths opts) /\ ToLower p = "stderr").
Proof.
  unfold getWriteSyncer.
  destruct (console_loop_inv (file_sink opts) (OutputPaths opts) [] [] ∅
              console_inv_init) as (c & m & E & Hinv).
  exists c. split.
  - unfold file_sink in *. destruct (String.eqb (Filename opts) ""); simpl in *;
      rewrite ?app_nil_r in E; rewrite E; reflexivity.
  - destruct Hinv as (Hnd & Hkind & Hout & Herr & _). simpl in Hout, Herr. auto.
Qed.

Example getWriteSyncer_mixed_destinations :
  getWriteSyncer
    (Apply [WithOutputPaths ["STDOUT"; "stdout"; "file.log"; "StdErr"; "Stdout"];
            WithFilename "app.log"; WithMaxSize 10] NewOptions)
  = [Lumberjack "app.log" 10 0 0 false; Stdout; Stderr].
Proof. vm_compute. reflexivity. Qed.

(** ** C10: from [Config] to [Options] *)

Lemma Logger_log_no_sink (l : ptr) (g : Logger) (w : World)
    (lvl : zapcore.Level) (msg : string) (fields : list Field) :
  heap w !! l = Some g -> core_out g = [] ->
  Logger_log l lvl msg fields w = w.
Proof.
  intros Hl Hout. unfold Logger_log. rewrite Hl, Hout. simpl.
  rewrite app_nil_r. destruct w, (zapcore.Enabled _ _); reflexivity.
Qed.

(** C10: converting a non-nil [Config] copies its twelve fields as they
    are, empty ones included, through [ToOptions] and through
    [ToLogOptionsFromConfig] alike; a [Config] with no output path and
    no filename then gives a logger without any normal-output sink, and
    every entry logged through it leaves the output as it was. *)
Theorem ToOptions_copies_verbatim (c : Config.t) (w : World) :
  Config.ToOptions (Some c) =
    mkOptions (Config.OutputPaths c) (Config.ErrorOutputPaths c) (Config.Level c)
      (Config.Format c) (Config.DisableCaller c) (Config.DisableStacktrace c)
      (Config.Filename c) (Config.MaxSize c) (Config.MaxAge c)
      (Config.MaxBackups c) (Config.Compress c) (Config.Development c)
  /\ ToLogOptionsFromConfig (Some c) = Config.ToOptions (Some c)
  /\ (Config.OutputPaths c = [] /\ Config.Filename c = "" ->
      let '((_, l), w') := New (Config.ToOptions (Some c)) w in
      exists g, heap w' !! l = Some g
                /\ core_out g = []
                /\ forall lvl msg fields, Logger_log l lvl msg fields w' = w').
Proof.
  split; [reflexivity|]. split; [reflexivity|].
  intros [Hout Hfile]. rewrite New_eq.
  set (o := Config.ToOptions (Some c)).
  assert (Hg : core_out (snd (New_body o)) = []).
  { unfold New_body, o. destruct c as [lv fm op ep dc ds fn ms ma mb cp dev].
    simpl in Hout, Hfile. subst op fn. simpl.
    destruct dev; simpl; [|reflexivity].
    destruct (String.eqb lv "info"), dc; reflexivity. }
  exists (snd (New_body o)). split; [apply lookup_fresh|]. split; [exact Hg|].
  intros lvl msg fields. eapply Logger_log_no_sink; [apply lookup_fresh | exact Hg].
Qed.

Example ToOptions_of_the_zero_Config :
  let c := Config.mk "" "" [] [] false false "" 0 0 0 false false in
  Level (Config.ToOptions (Some c)) = ""
  /\ Format (Config.ToOptions (Some c)) = ""
  /\ OutputPaths (Config.ToOptions (Some c)) = []
  /\ ErrorOutputPaths (Config.ToOptions (Some c)) = []
  /\ core_out (snd (New_body (Config.ToOptions (Some c)))) = []
  /\ Config.ToOptions None = NewOptions.
Proof. vm_compute. repeat split. Qed.

(** ** C6: where the trace id and the request id come from *)

Lemma IsValid_SpanFromContext (ctx : Context) :
  IsValid (SpanFromContext ctx) = true <->
  exists sc, Value ctx currentSpanKey = Some (ASpan sc) /\ IsValid sc = true.
Proof.
  unfold SpanFromContext. split.
  - destruct (Value ctx currentSpanKey) as [[s|sc|n]|]; try discriminate.
    intros H. eauto.
  - intros (sc & -> & H). exact H.
Qed.

Lemma hex_fixed_length (digits : nat) :
  forall (n : N) (acc : string),
  String.length (hex_fixed digits n acc) = (digits + String.length acc)%nat.
Proof.
  induction digits as [|k IH]; intros n acc; simpl; [reflexivity|].
  rewrite IH. simpl. lia.
Qed.

Lemma TraceID_String_nonempty (t : N) : TraceID_String t <> "".
Proof.
  intros E. pose proof (hex_fixed_length 32 t "") as H.
  unfold TraceID_String in E. rewrite E in H. discriminate H.
Qed.

Lemma FromContext_context_fields (ctx : Context) (w : World) :
  FromContext (Some ctx) w = Logger_With (std w) (context_fields ctx) w.
Proof.
  unfold FromContext, context_fields, Value_string.
  destruct (String.eqb (extractTraceID ctx) "");
    destruct (Value ctx requestIDKey) as [[r|sc|n]|];
    try destruct (String.eqb r ""); reflexivity.
Qed.

(** C6: the trace id is the hex form of the span's trace id whenever
    the context carries a span with a valid span context, whatever is
    stored under the custom key; otherwise it is the string stored
    under the custom key, and the empty string when that value is
    missing, not a string, or empty.  The request id is the string
    under its own key and does not change when a span is attached;
    [FromContext] binds the trace id so extracted and the request id
    under its key, each when non-empty. *)
Theorem extractTraceID_sources (ctx : Context) :
  TraceIDFromContext (Some ctx) = Some (extractTraceID ctx)
  /\ (forall sc, Value ctx currentSpanKey = Some (ASpan sc) /\ IsValid sc = true ->
        extractTraceID ctx = TraceID_String (traceID sc)
        /\ extractTraceID ctx <> "")
  /\ (IsValid (SpanFromContext ctx) = false ->
        extractTraceID ctx =
          match Value ctx traceIDKey with
          | Some (AString s) => s
          | _ => ""
          end)
  /\ RequestIDFromContext (Some ctx) =
       match Value ctx requestIDKey with
       | Some (AString s) => s
       | _ => ""
       end
  /\ (forall sc, RequestIDFromContext (Some (ContextWithSpan ctx sc))
                 = RequestIDFromContext (Some ctx))
  /\ (forall w, FromContext (Some ctx) w
                = Logger_With (std w) (context_fields ctx) w).
Proof.
  split; [reflexivity|]. split; [|split; [|split; [|split]]];
    [| | | |apply FromContext_context_fields].
  - intros sc [Hv Hsc]. unfold extractTraceID, SpanFromContext.
    rewrite Hv, Hsc. split; [reflexivity | apply TraceID_String_nonempty].
  - intros Hinv. unfold extractTraceID, Value_string. rewrite Hinv.
    destruct (Value ctx traceIDKey) as [[s|sc|n]|]; try reflexivity.
    destruct (String.eqb_spec s ""); simpl; congruence.
  - unfold RequestIDFromContext, Value_string.
    destruct (Value ctx requestIDKey) as [[s|sc|n]|]; reflexivity.
  - intros sc. unfold RequestIDFromContext, Value_string, ContextWithSpan.
    simpl. reflexivity.
Qed.

Example extractTraceID_span_over_custom_key :
  let sc := mkSpanContext 0x4bf92f3577b34da6a3ce929d0e0e4736 0x00f067aa0ba902b7 in
  extractTraceID (ContextWithSpan (ContextWithTraceID Background "custom") sc)
    = "4bf92f3577b34da6a3ce929d0e0e4736"
  /\ extractTraceID (ContextWithTraceID (ContextWithSpan Background sc) "custom")
    = "4bf92f3577b34da6a3ce929d0e0e4736"
  /\ extractTraceID (ContextWithSpan (ContextWithTraceID Background "custom")
                       (mkSpanContext 0x4bf92f3577b34da6a3ce929d0e0e4736 0))
    = "custom"
  /\ extractTraceID (ContextWithTraceID Background "") = ""
  /\ extractTraceID Background = "".
Proof. vm_compute. repeat split. Qed.

(** ** C7: what a write through an adapter does *)

Lemma length_snoc (q : string) (c : ascii) :
  String.length (q +:+ String c "") = S (String.length q).
Proof. induction q as [|a q IH]; simpl; [reflexivity | now rewrite IH]. Qed.

Lemma get_snoc (q : string) (c : ascii) :
  String.get (String.length q) (q +:+ String c "") = Some c.
Proof. induction q as [|a q IH]; simpl; [reflexivity | exact IH]. Qed.

Lemma substring_snoc (q : string) (c : ascii) :
  String.substring 0 (String.length q) (q +:+ String c "") = q.
Proof. induction q as [|a q IH]; simpl; [reflexivity | now rewrite IH]. Qed.

Lemma last_byte_split_at (p : string) :
  forall (n : nat) (c : ascii),
  String.length p = S n -> String.get n p = Some c ->
  p = String.substring 0 n p +:+ String c "".
Proof.
  induction p as [|a p IH]; intros n c Hlen Hget; [discriminate|].
  destruct n as [|n]; simpl in *.
  - destruct p; [|discriminate]. now injection Hget as ->.
  - change (String a p = String a (String.substring 0 n p +:+ String c "")).
    f_equal. apply IH; [lia | assumption].
Qed.

Lemma last_byte_split (p : string) (c : ascii) :
  String.get (String.length p - 1) p = Some c ->
  p = String.substring 0 (String.length p - 1) p +:+ String c "".
Proof.
  intros H. destruct p as [|a p]; [discriminate|].
  apply last_byte_split_at; [simpl; lia | assumption].
Qed.

Lemma Write_msg_newline (q : string) : Write_msg (q +:+ newline) = q.
Proof.
  unfold Write_msg, newline. rewrite length_snoc. simpl Nat.ltb.
  replace (S (String.length q) - 1)%nat with (String.length q) by lia.
  rewrite get_snoc, substring_snoc. reflexivity.
Qed.

Lemma Write_msg_other (p : string) :
  (forall q, p <> q +:+ newline) -> Write_msg p = p.
Proof.
  intros H. unfold Write_msg.
  destruct (String.get (String.length p - 1) p) as [c|] eqn:E;
    [|now rewrite andb_false_r].
  destruct (Ascii.eqb_spec c "010") as [->|Hc]; [|now rewrite andb_false_r].
  exfalso. apply (H (String.substring 0 (String.length p - 1) p)).
  now apply last_byte_split.
Qed.

Lemma Write_eq (zw : zapWriter) (p : string) (w : World) :
  Write zw p w =
  ((Z.of_nat (String.length p), None),
   Logger_log (logger zw) (Write_level zw) (Write_msg p) [] w).
Proof.
  unfold Write, Write_level, Logger_Debug, Logger_Info, Logger_Warn, Logger_Error.
  destruct (Z.eqb_spec (level zw) zapcore.DebugLevel) as [->|?]; [reflexivity|].
  destruct (Z.eqb_spec (level zw) zapcore.InfoLevel) as [->|?]; [reflexivity|].
  destruct (Z.eqb_spec (level zw) zapcore.WarnLevel) as [->|?]; [reflexivity|].
  destruct (Z.eqb_spec (level zw) zapcore.ErrorLevel) as [->|?]; reflexivity.
Qed.

(** C7: for every byte string [p], [Write] returns the length of [p]
    and a nil error, and its whole effect is one call of its logger
    with the message [p] without one trailing newline ([p] itself when
    it does not end in a newline) at the adapter's severity: "info"
    for [GinWriter], "error" for [GinErrorWriter].  The sinks
    therefore receive that one entry when the logger's level enables
    it and nothing otherwise. *)
Theorem Write_one_entry_and_full_length (zw : zapWriter) (p : string) (w : World) :
  fst (Write zw p w) = (Z.of_nat (String.length p), None)
  /\ snd (Write zw p w)
     = Logger_log (logger zw) (Write_level zw) (Write_msg p) [] w
  /\ (forall q, p = q +:+ newline -> Write_msg p = q)
  /\ ((forall q, p <> q +:+ newline) -> Write_msg p = p)
  /\ (forall w0, Write_level (GinWriter w0) = zapcore.InfoLevel
                 /\ Write_level (GinErrorWriter w0) = zapcore.ErrorLevel)
  /\ (forall g, heap w !! logger zw = Some g ->
        heap (snd (Write zw p w)) = heap w
        /\ std (snd (Write zw p w)) = std w
        /\ output (snd (Write zw p w)) =
           output w ++
           (if zapcore.Enabled (core_level g) (Write_level zw)
            then map (fun s => (s, entry_of g (Write_level zw) (Write_msg p) []))
                   (core_out g)
            else [])).
Proof.
  rewrite Write_eq. simpl. split; [reflexivity|]. split; [reflexivity|].
  split; [intros q ->; apply Write_msg_newline|].
  split; [apply Write_msg_other|].
  split; [intros w0; split; reflexivity|].
  intros g Hg. unfold Logger_log. rewrite Hg.
  destruct (zapcore.Enabled (core_level g) (Write_level zw)); simpl;
    rewrite ?app_nil_r; auto.
Qed.

Example Write_strips_one_newline :
  Write_msg ("GET /ping 200" +:+ newline) = "GET /ping 200"
  /\ Write_msg ("two" +:+ newline +:+ newline) = "two" +:+ newline
  /\ Write_msg "no newline" = "no newline"
  /\ Write_msg "" = ""
  /\ fst (Write (GinErrorWriter init) ("boom" +:+ newline) init) = (5, None).
Proof. vm_compute. repeat split. Qed.

(** ** C2: which logger an adapter writes to *)

Lemma Init_eq (opts : list Option) (w : World) :
  Init opts w =
  mkWorld (heap w ++ [snd (New_body (Apply opts NewOptions))])
    (List.length (heap w)) (output w).
Proof. unfold Init. rewrite New_eq. reflexivity. Qed.

Lemma lookup_old (h : list Logger) (g g' : Logger) (l : ptr) :
  h !! l = Some g -> (h ++ [g']) !! l = Some g /\ l <> List.length h.
Proof.
  intros H. split.
  - now apply lookup_app_l_Some.
  - apply lookup_lt_Some in H. lia.
Qed.

(** C2, as stated, fails: an adapter made before the logger is
    re-initialised at level "error" still writes its "info" line to the
    sink of the first logger, while the global logger of that moment
    drops "info" entries; the adapter's logger is not the global one. *)
Lemma adapter_writes_to_the_replaced_logger :
  logger (GinWriter init) <> std (Init [WithLevel "error"] init)
  /\ output (snd (Write (GinWriter init) ("hi" +:+ newline)
                    (Init [WithLevel "error"] init)))
     = [(Stdout, mkEntry zapcore.InfoLevel "hi" [] true false ConsoleEncoder)]
  /\ output (Info "hi" [] (Init [WithLevel "error"] init)) = [].
Proof. vm_compute. repeat split. discriminate. Qed.

(** C2 (amended): every write through an adapter is emitted through
    the logger that was global when the adapter was created.  After a
    re-initialisation the global logger is a new object, the earlier
    one is still in place and unchanged, an adapter created before
    keeps writing to that earlier logger, with its level and sinks, and
    only an adapter created afterwards uses the new global logger. *)
Theorem adapter_keeps_the_logger_of_its_creation
    (w : World) (g : Logger) (opts : list Option) (p : string)
    (Hstd : heap w !! std w = Some g) :
  let w1 := Init opts w in
  logger (GinWriter w) = std w /\ logger (GinErrorWriter w) = std w
  /\ std w1 <> std w
  /\ heap w1 !! std w = Some g
  /\ snd (Write (GinWriter w) p w1)
     = Logger_log (std w) zapcore.InfoLevel (Write_msg p) [] w1
  /\ snd (Write (GinErrorWriter w) p w1)
     = Logger_log (std w) zapcore.ErrorLevel (Write_msg p) [] w1
  /\ output (snd (Write (GinWriter w) p w1)) =
     output w ++
     (if zapcore.Enabled (core_level g) zapcore.InfoLevel
      then map (fun s => (s, entry_of g zapcore.InfoLevel (Write_msg p) []))
             (core_out g)
      else [])
  /\ logger (GinWriter w1) = std w1 /\ logger (GinErrorWriter w1) = std w1.
Proof.
  intros w1. subst w1. rewrite Init_eq, !Write_eq.
  destruct (lookup_old (heap w) g (snd (New_body (Apply opts NewOptions)))
              (std w) Hstd) as [Hold Hne].
  change (Write_level (GinWriter w)) with zapcore.InfoLevel.
  change (Write_level (GinErrorWriter w)) with zapcore.ErrorLevel.
  cbn [fst snd logger GinWriter GinErrorWriter heap std output].
  split_conj; try reflexivity; try assumption.
  - congruence.
  - unfold Logger_log. cbn [heap std output]. rewrite Hold.
    destruct (zapcore.Enabled (core_level g) zapcore.InfoLevel);
      cbn [output]; rewrite ?app_nil_r; reflexivity.
Qed.

Lemma adapter_keeps_the_logger_of_its_creation_witness :
  heap init !! std init = Some (snd (New_body NewOptions))
  /\ std (Init [WithLevel "error"] init) <> std init
  /\ snd (Write (GinWriter init) ("hi" +:+ newline) (Init [WithLevel "error"] init))
     = Logger_log (std init) zapcore.InfoLevel (Write_msg ("hi" +:+ newline)) []
         (Init [WithLevel "error"] init).
Proof.
  split; [reflexivity|].
  pose proof (adapter_keeps_the_logger_of_its_creation init
                (snd (New_body NewOptions)) [WithLevel "error"] ("hi" +:+ newline)
                eq_refl) as H.
  cbv zeta in H. destruct H as (_ & _ & Hne & _ & Hw & _).
  split; [exact Hne | exact Hw].
Defined.

(** ** C5: the logger [FromContext] returns *)

(** C5: when the context binds the trace-id key to a non-empty [T] and
    the request-id key to a non-empty [R] and carries no valid span,
    [FromContext] returns a logger other than the global one, a clone
    of it whose core carries "traceID"=[T] and "requestID"=[R], so that
    every entry logged through it has both fields; the global logger,
    the variable [std] and the output are as before.  For a nil context,
    and for a context with no valid span and no non-empty string under
    either key, the result is the global logger itself and nothing
    changes. *)
Theorem FromContext_attaches_both_ids
    (w : World) (g : Logger) (ctx : Context) (T R : string)
    (Hstd : heap w !! std w = Some g)
    (Hspan : IsValid (SpanFromContext ctx) = false)
    (Ht : Value ctx traceIDKey = Some (AString T)) (HT : T <> "")
    (Hr : Value ctx requestIDKey = Some (AString R)) (HR : R <> "") :
  let l := fst (FromContext (Some ctx) w) in
  let w' := snd (FromContext (Some ctx) w) in
  let g' := clone_with g [zap_String "traceID" T; zap_String "requestID" R] in
  l <> std w
  /\ heap w' !! l = Some g'
  /\ std w' = std w /\ heap w' !! std w = Some g /\ output w' = output w
  /\ (forall lvl msg fields,
        e_fields (entry_of g' lvl msg fields)
        = core_fields g ++ [zap_String "traceID" T; zap_String "requestID" R]
            ++ fields
        /\ output (Logger_log l lvl msg fields w') =
           output w ++
           (if zapcore.Enabled (core_level g) lvl
            then map (fun s => (s, entry_of g' lvl msg fields)) (core_out g)
            else []))
  /\ FromContext None w = (std w, w)
  /\ (forall ctx0,
        IsValid (SpanFromContext ctx0) = false ->
        (forall s, Value ctx0 traceIDKey = Some (AString s) -> s = "") ->
        (forall s, Value ctx0 requestIDKey = Some (AString s) -> s = "") ->
        FromContext (Some ctx0) w = (std w, w)).
Proof.
  assert (E : FromContext (Some ctx) w =
              alloc (clone_with g [zap_String "traceID" T; zap_String "requestID" R]) w).
  { unfold FromContext, extractTraceID, Value_string.
    rewrite Hspan, Ht, Hr.
    apply String.eqb_neq in HT, HR. rewrite HT, HR. cbn [negb].
    rewrite HT. cbn [negb app List.length Nat.eqb].
    unfold Logger_With. rewrite Hstd. reflexivity. }
  rewrite E. unfold alloc. cbn [fst snd heap std output].
  destruct (lookup_old (heap w) g
              (clone_with g [zap_String "traceID" T; zap_String "requestID" R])
              (std w) Hstd) as [Hold Hne].
  split_conj; try reflexivity; try assumption.
  - congruence.
  - apply lookup_fresh.
  - intros lvl msg fields. split.
    + unfold entry_of, clone_with. cbn [e_fields core_fields].
      now rewrite <- app_assoc.
    + unfold Logger_log. cbn [heap std output]. rewrite lookup_fresh.
      cbn [clone_with core_level core_out].
      destruct (zapcore.Enabled (core_level g) lvl); cbn [output];
        rewrite ?app_nil_r; reflexivity.
  - intros ctx0 Hs0 Ht0 Hr0. unfold FromContext, extractTraceID, Value_string.
    rewrite Hs0.
    destruct (Value ctx0 traceIDKey) as [[s|sc|n]|];
      try (rewrite (Ht0 _ eq_refl)); cbn [String.eqb negb];
      destruct (Value ctx0 requestIDKey) as [[s'|sc'|n']|];
      try (rewrite (Hr0 _ eq_refl)); reflexivity.
Qed.

Lemma FromContext_attaches_both_ids_witness :
  let ctx := ContextWithRequestID (ContextWithTraceID Background "T") "R" in
  fst (FromContext (Some ctx) init) <> std init
  /\ heap (snd (FromContext (Some ctx) init)) !! fst (FromContext (Some ctx) init)
     = Some (clone_with (snd (New_body NewOptions))
               [zap_String "traceID" "T"; zap_String "requestID" "R"])
  /\ FromContext (Some Background) init = (std init, init).
Proof.
  intros ctx.
  pose proof (FromContext_attaches_both_ids init (snd (New_body NewOptions)) ctx
                "T" "R" eq_refl eq_refl eq_refl ltac:(discriminate)
                eq_refl ltac:(discriminate)) as H.
  cbv zeta in H. destruct H as (Hne & Hl & _ & _ & _ & _ & _ & Hnone).
  split; [exact Hne|]. split; [exact Hl|].
  apply Hnone; [reflexivity | discriminate | discriminate].
Defined.

Example FromContext_on_the_test_context :
  let ctx := ContextWithRequestID
               (ContextWithTraceID Background "my-trace-id-123") "my-request-id-456" in
  let '(l, w) := FromContext (Some ctx) init in
  output (Logger_Info l "hello" [] w)
  = [(Stdout,
      mkEntry zapcore.InfoLevel "hello"
        [zap_String "traceID" "my-trace-id-123";
         zap_String "requestID" "my-request-id-456"] true false ConsoleEncoder)]
  /\ output (Info "hello" [] w)
     = [(Stdout, mkEntry zapcore.InfoLevel "hello" [] true false ConsoleEncoder)].
Proof. vm_compute. repeat split. Qed.

(** * Further properties of the package *)

(** ** The sink loops *)

Lemma console_kinds_length (c : list WriteSyncer) :
  NoDup c -> (forall s, In s c -> s = Stdout \/ s = Stderr) ->
  (List.length c <= 2)%nat.
Proof.
  intros Hnd Hkind.
  change 2%nat with (List.length [Stdout; Stderr]).
  apply NoDup_ListNoDup in Hnd.
  apply (List.NoDup_incl_length Hnd).
  intros s Hs. destruct (Hkind s Hs) as [->| ->]; simpl; auto.
Qed.

Lemma error_console_loop (opts : Options) :
  exists c m,
    fold_left console_step (ErrorOutputPaths opts) ([], ∅) = (c, m)
    /\ console_inv (ErrorOutputPaths opts) c m.
Proof.
  destruct (console_loop_inv [] (ErrorOutputPaths opts) [] [] ∅ console_inv_init)
    as (c & m & E & Hinv).
  exists c, m. simpl in E, Hinv. auto.
Qed.

(** X1: the sink for the logger's own errors is never empty and holds
    only console streams, each at most once: stdout exactly when some
    error destination lower-cases to "stdout"; stderr when some error
    destination lower-cases to "stderr" and also when no destination
    names stdout, so that a list naming neither stream gives stderr
    alone. *)
Theorem getErrorWriteSyncer_resolution (opts : Options) :
  let ws := getErrorWriteSyncer opts in
  ws <> []
  /\ NoDup ws
  /\ (forall s, In s ws -> s = Stdout \/ s = Stderr)
  /\ (In Stdout ws <->
      exists p, In p (ErrorOutputPaths opts) /\ ToLower p = "stdout")
  /\ (In Stderr ws <->
      (exists p, In p (ErrorOutputPaths opts) /\ ToLower p = "stderr")
      \/ ~ (exists p, In p (ErrorOutputPaths opts) /\ ToLower p = "stdout"))
  /\ ((forall p, In p (ErrorOutputPaths opts) ->
         ToLower p <> "stdout" /\ ToLower p <> "stderr") -> ws = [Stderr]).
Proof.
  unfold getErrorWriteSyncer.
  destruct (error_console_loop opts) as (c & m & -> & Hinv).
  destruct Hinv as (Hnd & Hkind & Hout & Herr & _).
  cbn [fst]. destruct c as [|s c].
  - cbn [List.length Nat.eqb app].
    split_conj.
    + discriminate.
    + repeat constructor. intros H; inversion H.
    + intros s [<-|[]]. now right.
    + split.
      * intros [H|[]]. discriminate.
      * intros H. apply Hout in H. destruct H.
    + split.
      * intros _. right. intros H. apply Hout in H. destruct H.
      * intros _. now left.
    + reflexivity.
  - cbn [List.length Nat.eqb].
    split_conj; try assumption.
    + discriminate.
    + split.
      * intros H. apply Herr in H. now left.
      * intros [H|H]; [now apply Herr|].
        destruct (Hkind s (or_introl eq_refl)) as [->| ->]; [|now left].
        exfalso. apply H, Hout. now left.
    + intros Hnone. exfalso.
      destruct (Hkind s (or_introl eq_refl)) as [->| ->].
      * assert (H : In Stdout (Stdout :: c)) by now left.
        apply Hout in H. destruct H as (p & Hp & E).
        destruct (Hnone p Hp). contradiction.
      * assert (H : In Stderr (Stderr :: c)) by now left.
        apply Herr in H. destruct H as (p & Hp & E).
        destruct (Hnone p Hp). contradiction.
Qed.

Lemma classify_Some (p : string) (s : WriteSyncer) :
  classify p = Some s ->
  (s = Stdout /\ ToLower p = "stdout") \/ (s = Stderr /\ ToLower p = "stderr").
Proof.
  unfold classify.
  destruct (String.eqb_spec (ToLower p) "stdout");
    [intros [= <-]; auto|].
  destruct (String.eqb_spec (ToLower p) "stderr"); [intros [= <-]; auto|].
  discriminate.
Qed.

Lemma classify_None (p : string) :
  classify p = None -> ToLower p <> "stdout" /\ ToLower p <> "stderr".
Proof.
  unfold classify.
  destruct (String.eqb_spec (ToLower p) "stdout"); [discriminate|].
  destruct (String.eqb_spec (ToLower p) "stderr"); [discriminate|]. auto.
Qed.

Lemma console_step_classify (writers : list WriteSyncer)
    (m : gmap string bool) (seen : list WriteSyncer) (p : string) :
  map_records m seen ->
  console_step (writers, m) p =
  match classify p with
  | Some s =>
      if decide (s ∈ seen) then (writers, m)
      else (writers ++ [s], <[ToLower p := true]> m)
  | None => (writers, m)
  end.
Proof.
  intros (Hout & Herr & Hkeys). unfold console_step, classify.
  destruct (String.eqb_spec (ToLower p) "stdout") as [E|E].
  - rewrite E. destruct (decide (Stdout ∈ seen)) as [Hin|Hnin].
    + apply Hout in Hin. destruct Hin as [b ->]. reflexivity.
    + destruct (m !! "stdout") eqn:Em; [|reflexivity].
      exfalso. apply Hnin, Hout. eauto.
  - destruct (String.eqb_spec (ToLower p) "stderr") as [E'|E'].
    + rewrite E'. destruct (decide (Stderr ∈ seen)) as [Hin|Hnin].
      * apply Herr in Hin. destruct Hin as [b ->]. reflexivity.
      * destruct (m !! "stderr") eqn:Em; [|reflexivity].
        exfalso. apply Hnin, Herr. eauto.
    + destruct (m !! ToLower p) eqn:Em; [|reflexivity].
      exfalso. destruct (Hkeys (ToLower p)); [rewrite Em; eauto | tauto | tauto].
Qed.

Lemma map_records_insert (m : gmap string bool) (seen : list WriteSyncer)
    (p : string) (s : WriteSyncer) :
  map_records m seen -> classify p = Some s ->
  map_records (<[ToLower p := true]> m) (s :: seen).
Proof.
  intros (Hout & Herr & Hkeys) Ec. apply classify_Some in Ec.
  destruct Ec as [[-> E]|[-> E]]; rewrite E; unfold map_records; split_conj.
  - rewrite lookup_insert_eq. split; [intros _; left | eauto].
  - rewrite lookup_insert_ne by discriminate. rewrite Herr, elem_of_cons.
    split; [auto | intros [H|H]; [discriminate | assumption]].
  - intros k. rewrite lookup_insert. case_decide; [subst; auto | apply Hkeys].
  - rewrite lookup_insert_ne by discriminate. rewrite Hout, elem_of_cons.
    split; [auto | intros [H|H]; [discriminate | assumption]].
  - rewrite lookup_insert_eq. split; [intros _; left | eauto].
  - intros k. rewrite lookup_insert. case_decide; [subst; auto | apply Hkeys].
Qed.

Lemma console_loop_first_mentions (paths : list string) :
  forall (writers : list WriteSyncer) (m : gmap string bool)
         (seen : list WriteSyncer),
  map_records m seen ->
  fst (fold_left console_step paths (writers, m))
  = writers ++ first_mentions seen paths.
Proof.
  induction paths as [|p rest IH]; intros writers m seen Hm;
    cbn [fold_left first_mentions].
  - cbn [fst]. now rewrite app_nil_r.
  - rewrite (console_step_classify writers m seen p Hm).
    destruct (classify p) as [s|] eqn:Ec; [|now apply IH].
    destruct (decide (s ∈ seen)); [now apply IH|].
    rewrite (IH _ _ (s :: seen)) by now apply map_records_insert.
    now rewrite <- app_assoc.
Qed.

Lemma map_records_empty : map_records ∅ [].
Proof.
  unfold map_records. split_conj.
  - rewrite lookup_empty. split; [intros [? ?]; discriminate | intros H; inversion H].
  - rewrite lookup_empty. split; [intros [? ?]; discriminate | intros H; inversion H].
  - intros k. rewrite lookup_empty. intros [? ?]; discriminate.
Qed.

(** X2: the sinks come in a fixed order: the rotating-file sink first,
    then the console streams in the order in which the destination
    list first mentions them; the error sink is built the same way
    from the error destinations, with stderr standing in when none is
    mentioned. *)
Theorem sinks_in_order_of_first_mention (opts : Options) :
  getWriteSyncer opts = file_sink opts ++ first_mentions [] (OutputPaths opts)
  /\ getErrorWriteSyncer opts =
     match first_mentions [] (ErrorOutputPaths opts) with
     | [] => [Stderr]
     | c => c
     end.
Proof.
  unfold getWriteSyncer, getErrorWriteSyncer.
  rewrite !(fun ps ws => console_loop_first_mentions ps ws ∅ [] map_records_empty).
  split.
  - unfold file_sink. destruct (String.eqb (Filename opts) ""); reflexivity.
  - cbn [app]. destruct (first_mentions [] (ErrorOutputPaths opts)); reflexivity.
Qed.

Example sinks_order_follows_the_list :
  getWriteSyncer (WithOutputPaths ["stderr"; "x"; "STDOUT"; "Stderr"] NewOptions)
  = [Stderr; Stdout]
  /\ getErrorWriteSyncer (WithErrorOutputPaths ["errors.log"] NewOptions) = [Stderr]
  /\ getErrorWriteSyncer (WithErrorOutputPaths ["stdout"] NewOptions) = [Stdout].
Proof. vm_compute. repeat split. Qed.

(** X3: whatever the options, a logger built by [New] has at most
    three normal-output sinks and one or two error sinks, so one
    logging call writes at most three copies of its entry however long
    the destination lists are. *)
Theorem New_sink_counts (opts : Options) (w : World) (l : ptr)
    (lvl : zapcore.Level) (msg : string) (fields : list Field)
    (Hl : heap w !! l = Some (snd (New_body opts))) :
  (List.length (core_out (snd (New_body opts))) <= 3)%nat
  /\ (1 <= List.length (errorOutput (snd (New_body opts))) <= 2)%nat
  /\ exists written,
       output (Logger_log l lvl msg fields w) = output w ++ written
       /\ (List.length written <= 3)%nat.
Proof.
  assert (Hout : forall o, (List.length (getWriteSyncer o) <= 3)%nat).
  { intros o. unfold getWriteSyncer.
    destruct (console_loop_inv (file_sink o) (OutputPaths o) [] [] ∅
                console_inv_init) as (c & m & E & (Hnd & Hk & _)).
    pose proof (console_kinds_length c Hnd Hk) as Hlen.
    unfold file_sink in E.
    destruct (String.eqb (Filename o) ""); cbn [negb app] in *;
      rewrite ?app_nil_r in E; rewrite E; cbn [fst];
      rewrite ?length_app; simpl; lia. }
  assert (Herr : forall o, (1 <= List.length (getErrorWriteSyncer o) <= 2)%nat).
  { intros o. unfold getErrorWriteSyncer.
    destruct (error_console_loop o) as (c & m & -> & (Hnd & Hk & _)).
    pose proof (console_kinds_length c Hnd Hk) as Hlen. cbn [fst].
    destruct c; cbn [List.length Nat.eqb app] in *; lia. }
  assert (Hc : (List.length (core_out (snd (New_body opts))) <= 3)%nat)
    by (unfold New_body; cbn [snd core_out]; apply Hout).
  split; [exact Hc|].
  split; [unfold New_body; cbn [snd errorOutput]; apply Herr|].
  unfold Logger_log. rewrite Hl.
  destruct (zapcore.Enabled _ lvl); cbn [output].
  - eexists. split; [reflexivity|]. now rewrite length_map.
  - exists []. rewrite app_nil_r. split; [reflexivity | simpl; lia].
Qed.

Lemma New_sink_counts_witness :
  exists written,
    output (Logger_log 0%nat zapcore.ErrorLevel "e" [] init) = output init ++ written
    /\ (List.length written <= 3)%nat.
Proof.
  apply (New_sink_counts NewOptions init 0%nat zapcore.ErrorLevel "e" [] eq_refl).
Defined.

(** ** Options *)

Lemma Apply_app (a b : list Option) (o : Options) :
  Apply (a ++ b) o = Apply b (Apply a o).
Proof. unfold Apply. apply fold_left_app. Qed.

(** X4: options apply left to right, so applying two lists in turn is
    applying their concatenation, and the last option for a field
    decides it: a final [WithFormat], [WithFilename] or
    [WithOutputPaths] always wins, while a final [WithLevel] wins only
    if the parser accepts its argument and otherwise leaves the level
    the earlier options produced. *)
Theorem Apply_later_option_wins (a b : list Option) (o : Options)
    (format filename level : string) (paths : list string) :
  Apply (a ++ b) o = Apply b (Apply a o)
  /\ Format (Apply (a ++ [WithFormat format]) o) = format
  /\ Filename (Apply (a ++ [WithFilename filename]) o) = filename
  /\ OutputPaths (Apply (a ++ [WithOutputPaths paths]) o) = paths
  /\ Level (Apply (a ++ [WithLevel level]) o) =
     match zapcore.UnmarshalText level with
     | Some _ => level
     | None => Level (Apply a o)
     end.
Proof.
  split; [apply Apply_app|].
  rewrite !Apply_app. unfold Apply at 1 3 5 7. cbn [fold_left].
  split_conj; try reflexivity.
  unfold WithLevel. destruct (zapcore.UnmarshalText level); reflexivity.
Qed.

Lemma option_of_keeps_level_parseable (c : with_call) (o : Options) :
  is_Some (zapcore.UnmarshalText (Level o)) ->
  is_Some (zapcore.UnmarshalText (Level (option_of c o))).
Proof.
  intros H. destruct c as [lv|?|?|?|?|?|?|?|?|?|?|?]; cbn [option_of];
    try exact H.
  unfold WithLevel. destruct (zapcore.UnmarshalText lv) eqn:E; [|exact H].
  cbn [set_Level Level]. rewrite E. eauto.
Qed.

(** X5: starting from options whose level the parser accepts, any
    sequence of the package's option constructors leaves a level the
    parser accepts; so a logger installed by [Init] with such options
    never takes the fall-back to "info" for an unparseable level, and
    its level is the one the final level string names. *)
Theorem options_keep_the_level_parseable (calls : list with_call) (o : Options)
    (Hlevel : is_Some (zapcore.UnmarshalText (Level o))) :
  is_Some (zapcore.UnmarshalText (Level (Apply (map option_of calls) o)))
  /\ (Development (Apply (map option_of calls) o) = false ->
      zapcore.UnmarshalText (Level (Apply (map option_of calls) o))
      = Some (core_level (snd (New_body (Apply (map option_of calls) o))))).
Proof.
  assert (H : is_Some (zapcore.UnmarshalText (Level (Apply (map option_of calls) o)))).
  { revert o Hlevel. unfold Apply.
    induction calls as [|c calls IH]; intros o Hlevel; cbn [map fold_left];
      [exact Hlevel|].
    apply IH. now apply option_of_keeps_level_parseable. }
  split; [exact H|].
  intros Hdev. unfold New_body. rewrite Hdev. cbn [snd core_level].
  destruct H as [l ->]. reflexivity.
Qed.

Lemma options_keep_the_level_parseable_witness :
  is_Some (zapcore.UnmarshalText
             (Level (Apply (map option_of
                              [CWithLevel "warn"; CWithLevel "verbose";
                               CWithFormat "json"]) NewOptions))).
Proof.
  apply (options_keep_the_level_parseable
           [CWithLevel "warn"; CWithLevel "verbose"; CWithFormat "json"]
           NewOptions).
  vm_compute. eauto.
Defined.

(** X6: a configuration that [Validate] accepts carries a level that
    the parser accepts too: [WithLevel] stores it unchanged, and the
    options made from the configuration keep it for [New] to parse. *)
Theorem Validate_accepts_only_parseable_levels (c : Config.t) (o : Options)
    (Hvalid : Config.Validate (Some c) = None) :
  is_Some (zapcore.UnmarshalText (Config.Level c))
  /\ Level (WithLevel (Config.Level c) o) = Config.Level c
  /\ is_Some (zapcore.UnmarshalText (Level (Config.ToOptions (Some c)))).
Proof.
  assert (H : is_Some (zapcore.UnmarshalText (Config.Level c))).
  { apply UnmarshalText_Some.
    destruct (String.eqb_spec (Config.Level c) "") as [E|E]; [now left|].
    right.
    destruct (Config.index Config.validLevels (Config.Level c)) eqn:Ei.
    - apply validLevels_index in Ei.
      unfold severities in *. simpl in Ei.
      repeat (destruct Ei as [Ei|Ei]; [rewrite <- Ei; vm_compute; tauto|]).
      destruct Ei.
    - exfalso. cbn [Config.Validate] in Hvalid.
      apply String.eqb_neq in E. rewrite E, Ei in Hvalid. discriminate. }
  split; [exact H|]. split; [|exact H].
  unfold WithLevel. destruct H as [l ->]. reflexivity.
Qed.

Lemma Validate_accepts_only_parseable_levels_witness :
  Level (WithLevel "dpanic" NewOptions) = "dpanic".
Proof.
  apply (Validate_accepts_only_parseable_levels
           (Config.mk "dpanic" "json" ["stdout"] [] false false "" 100 7 3 false false)
           NewOptions).
  vm_compute. reflexivity.
Defined.

Lemma UnmarshalText_ToLower (s : string) :
  zapcore.UnmarshalText (ToLower s) = zapcore.UnmarshalText s.
Proof.
  unfold zapcore.UnmarshalText at 2.
  destruct (zapcore.unmarshalText s) as [l|] eqn:E.
  - assert (Hs : is_Some (zapcore.unmarshalText s)) by (rewrite E; eauto).
    apply unmarshalText_Some in Hs.
    destruct Hs as [->|[Hs|Hs]]; [vm_compute in E |- *; congruence| |];
      simpl in Hs;
      repeat (destruct Hs as [Hs|Hs];
              [subst s; vm_compute in E |- *; congruence|]);
      destruct Hs.
  - unfold zapcore.UnmarshalText. rewrite ToLower_idem.
    destruct (zapcore.unmarshalText (ToLower s)); reflexivity.
Qed.

(** X7: outside development mode the level of the logger does not
    depend on the letter case of the configured level string (for
    ASCII strings), but the promotion of development mode does: it
    applies to "info" and not to "INFO", which [New] otherwise reads as
    the same level. *)
Theorem level_resolution_ignores_case (s : string) (o : Options)
    (Hascii : isASCII s = true) :
  core_level (snd (New_body (set_Level (ToLower s) (set_Development false o))))
  = core_level (snd (New_body (set_Level s (set_Development false o))))
  /\ core_level (snd (New_body (set_Level "INFO" (set_Development false o))))
     = core_level (snd (New_body (set_Level "info" (set_Development false o))))
  /\ core_level (snd (New_body (set_Level "info" (set_Development true o))))
     = zapcore.DebugLevel
  /\ core_level (snd (New_body (set_Level "INFO" (set_Development true o))))
     = zapcore.InfoLevel.
Proof.
  split; [|split; [|split]].
  - unfold New_body. cbn [set_Level set_Development Development Level snd core_level].
    now rewrite UnmarshalText_ToLower.
  - reflexivity.
  - destruct o as [op ep lv fm dc ds fn ms ma mb cp dev]. destruct dc; reflexivity.
  - destruct o as [op ep lv fm dc ds fn ms ma mb cp dev]. destruct dc; reflexivity.
Qed.

Lemma level_resolution_ignores_case_witness :
  core_level (snd (New_body (set_Level (ToLower "Error")
                               (set_Development false NewOptions))))
  = core_level (snd (New_body (set_Level "Error" (set_Development false NewOptions)))).
Proof.
  apply (level_resolution_ignores_case "Error" NewOptions). reflexivity.
Defined.

(** X8: [New] rewrites its options at most once: the options it leaves
    are left as they are by a second call, which builds the same
    logger as the first. *)
Theorem New_twice_on_the_same_options (opts : Options) :
  New_body (fst (New_body opts)) = New_body opts.
Proof.
  destruct opts as [op ep lv fm dc ds fn ms ma mb cp dev].
  unfold New_body. cbn [Development Level DisableCaller set_Level set_DisableCaller fst].
  destruct dev; [|reflexivity].
  destruct (String.eqb_spec lv "info") as [->|Hne], dc;
    cbn [Development Level DisableCaller set_Level set_DisableCaller fst];
    try reflexivity;
    apply String.eqb_neq in Hne; rewrite ?Hne; reflexivity.
Qed.

(** X9: no logger built by [New] attaches a stack trace to a "debug" or
    "info" entry; a "warn" entry gets one exactly in development mode
    and an "error" entry always, unless stack traces are disabled. *)
Theorem New_stack_trace_levels (opts : Options) (msg : string)
    (fields : list Field) :
  let g := snd (New_body opts) in
  e_stack (entry_of g zapcore.DebugLevel msg fields) = false
  /\ e_stack (entry_of g zapcore.InfoLevel msg fields) = false
  /\ e_stack (entry_of g zapcore.WarnLevel msg fields)
     = (negb (DisableStacktrace opts) && Development opts)%bool
  /\ e_stack (entry_of g zapcore.ErrorLevel msg fields)
     = negb (DisableStacktrace opts).
Proof.
  destruct opts as [op ep lv fm dc ds fn ms ma mb cp dev].
  cbv zeta. unfold New_body, entry_of.
  cbn [Development Level DisableCaller DisableStacktrace].
  destruct dev, ds, dc, (String.eqb lv "info"); split_conj; reflexivity.
Qed.

(** ** Contexts *)

(** X10: the request id read back from a context is the one set last,
    the empty string included; setting a trace id, attaching a span or
    storing a value under another package's key does not change it;
    without any request id, and on a nil context, the result is the
    empty string. *)
Theorem RequestID_round_trip (ctx : Context) (r r' t : string)
    (sc : SpanContext) (n : nat) (v : any) :
  RequestIDFromContext (Some (ContextWithRequestID ctx r)) = r
  /\ RequestIDFromContext
       (Some (ContextWithRequestID (ContextWithRequestID ctx r') r)) = r
  /\ RequestIDFromContext (Some (ContextWithTraceID (ContextWithRequestID ctx r) t)) = r
  /\ RequestIDFromContext (Some (ContextWithSpan (ContextWithRequestID ctx r) sc)) = r
  /\ RequestIDFromContext
       (Some (WithValue (ContextWithRequestID ctx r) (foreignKey n) v)) = r
  /\ RequestIDFromContext (Some Background) = ""
  /\ RequestIDFromContext None = "".
Proof. split_conj; reflexivity. Qed.

Lemma SpanFromContext_other_key (ctx : Context) (k : key) (v : any) :
  k <> currentSpanKey ->
  SpanFromContext (WithValue ctx k v) = SpanFromContext ctx.
Proof.
  intros Hk. unfold SpanFromContext. cbn [Value].
  destruct (decide (k = currentSpanKey)); [contradiction | reflexivity].
Qed.

(** X11: on a context without a valid span, the trace id read back is
    the one set last, and setting a request id or storing a value
    under another package's key does not change it.  A nil context is
    not guarded against: [TraceIDFromContext] panics on it. *)
Theorem TraceID_round_trip (ctx : Context) (t t' r : string) (n : nat) (v : any)
    (Hspan : IsValid (SpanFromContext ctx) = false) :
  TraceIDFromContext (Some (ContextWithTraceID ctx t)) = Some t
  /\ TraceIDFromContext (Some (ContextWithTraceID (ContextWithTraceID ctx t') t))
     = Some t
  /\ TraceIDFromContext (Some (ContextWithRequestID (ContextWithTraceID ctx t) r))
     = Some t
  /\ TraceIDFromContext (Some (WithValue (ContextWithTraceID ctx t) (foreignKey n) v))
     = Some t
  /\ TraceIDFromContext None = None.
Proof.
  assert (E : forall c, IsValid (SpanFromContext c) = false ->
                        extractTraceID (ContextWithTraceID c t) = t).
  { intros c Hc. unfold extractTraceID, ContextWithTraceID.
    rewrite SpanFromContext_other_key by discriminate. rewrite Hc.
    unfold Value_string. cbn [Value].
    destruct (decide (traceIDKey = traceIDKey)); [|contradiction].
    destruct (String.eqb_spec t ""); cbn [negb]; congruence. }
  assert (F : forall c k x, k <> currentSpanKey -> k <> traceIDKey ->
                extractTraceID (WithValue c k x) = extractTraceID c).
  { intros c k x Hk1 Hk2. unfold extractTraceID.
    rewrite SpanFromContext_other_key by assumption.
    unfold Value_string. cbn [Value].
    destruct (decide (k = traceIDKey)); [contradiction | reflexivity]. }
  unfold TraceIDFromContext. split_conj.
  - now rewrite E.
  - rewrite E; [reflexivity|].
    unfold ContextWithTraceID.
    now rewrite SpanFromContext_other_key by discriminate.
  - unfold ContextWithRequestID. rewrite F by discriminate. now rewrite E.
  - rewrite F by discriminate. now rewrite E.
  - reflexivity.
Qed.

Lemma TraceID_round_trip_witness :
  TraceIDFromContext (Some (ContextWithTraceID Background "test-trace-id"))
  = Some "test-trace-id".
Proof.
  apply (TraceID_round_trip Background "test-trace-id" "" "" 0%nat (AOther 0)).
  reflexivity.
Defined.

(** ** [FromContext] and the package state *)

Lemma Logger_With_frame (l : ptr) (fields : list Field) (w : World) :
  std (snd (Logger_With l fields w)) = std w
  /\ output (snd (Logger_With l fields w)) = output w
  /\ (exists ext, heap (snd (Logger_With l fields w)) = heap w ++ ext
                  /\ (List.length ext <= 1)%nat)
  /\ (is_Some (heap w !! l) ->
      is_Some (heap (snd (Logger_With l fields w)) !! fst (Logger_With l fields w))).
Proof.
  unfold Logger_With. destruct fields as [|f fs].
  - cbn [fst snd]. split_conj; try reflexivity; [|auto].
    exists []. rewrite app_nil_r. split; [reflexivity | simpl; lia].
  - destruct (heap w !! l) as [g|] eqn:E.
    + unfold alloc. cbn [fst snd heap std output].
      split_conj; try reflexivity.
      * eexists. split; [reflexivity | simpl; lia].
      * intros _. rewrite lookup_fresh. eauto.
    + cbn [fst snd]. split_conj; try reflexivity.
      * exists []. rewrite app_nil_r. split; [reflexivity | simpl; lia].
      * intros [? ?]; discriminate.
Qed.

Lemma FromContext_as_With (ctx : option Context) (w : World) :
  exists fields, FromContext ctx w = Logger_With (std w) fields w.
Proof.
  destruct ctx as [ctx|].
  - exists (context_fields ctx). apply FromContext_context_fields.
  - exists []. reflexivity.
Qed.

(** X12: [FromContext] writes nothing and leaves the package variable
    and every existing logger as they are: it allocates at most one
    logger, and the logger it returns exists whenever the global one
    does. *)
Theorem FromContext_frame (ctx : option Context) (w : World) :
  let l := fst (FromContext ctx w) in
  let w' := snd (FromContext ctx w) in
  std w' = std w
  /\ output w' = output w
  /\ (exists ext, heap w' = heap w ++ ext /\ (List.length ext <= 1)%nat)
  /\ (forall l0 g, heap w !! l0 = Some g -> heap w' !! l0 = Some g)
  /\ (std_valid w -> is_Some (heap w' !! l)).
Proof.
  cbv zeta. destruct (FromContext_as_With ctx w) as [fields ->].
  destruct (Logger_With_frame (std w) fields w) as (Hs & Ho & (ext & Hh & Hlen) & Hv).
  split_conj; try assumption.
  - eauto.
  - intros l0 g Hl. rewrite Hh. now apply lookup_app_l_Some.
Qed.

(** X13: logging through the logger that [FromContext] returns for a
    context writes what the global logger of that moment writes when
    the context's fields are put in front of the call's own fields. *)
Theorem FromContext_logger_is_std_with_fields
    (ctx : Context) (w : World) (g : Logger)
    (lvl : zapcore.Level) (msg : string) (fields : list Field)
    (Hstd : heap w !! std w = Some g) :
  output (Logger_log (fst (FromContext (Some ctx) w)) lvl msg fields
            (snd (FromContext (Some ctx) w)))
  = output (Logger_log (std w) lvl msg (context_fields ctx ++ fields) w).
Proof.
  rewrite FromContext_context_fields. unfold Logger_With.
  destruct (context_fields ctx) as [|f fs] eqn:Ef; [reflexivity|].
  rewrite Hstd. unfold alloc, Logger_log. cbn [fst snd heap std output].
  rewrite lookup_fresh, Hstd. cbn [clone_with core_level core_out].
  destruct (zapcore.Enabled (core_level g) lvl); cbn [output]; [|reflexivity].
  f_equal. apply map_ext. intros s. f_equal.
  unfold entry_of, clone_with. cbn [core_fields addCaller addStack core_enc].
  now rewrite <- app_assoc.
Qed.

Lemma FromContext_logger_is_std_with_fields_witness :
  output (Logger_log
            (fst (FromContext (Some (ContextWithRequestID Background "R")) init))
            zapcore.WarnLevel "m" []
            (snd (FromContext (Some (ContextWithRequestID Background "R")) init)))
  = output (Logger_log (std init) zapcore.WarnLevel "m"
              (context_fields (ContextWithRequestID Background "R") ++ []) init).
Proof.
  apply (FromContext_logger_is_std_with_fields
           (ContextWithRequestID Background "R") init (snd (New_body NewOptions))
           zapcore.WarnLevel "m" [] eq_refl).
Defined.

(** ** Sequences of calls *)

Lemma Logger_log_frame (l : ptr) (lvl : zapcore.Level) (msg : string)
    (fields : list Field) (w : World) :
  heap (Logger_log l lvl msg fields w) = heap w
  /\ std (Logger_log l lvl msg fields w) = std w
  /\ exists ext, output (Logger_log l lvl msg fields w) = output w ++ ext.
Proof.
  unfold Logger_log. destruct (heap w !! l) as [g|].
  - destruct (zapcore.Enabled (core_level g) lvl); cbn [heap std output].
    + split_conj; try reflexivity. eauto.
    + split_conj; try reflexivity. exists []. now rewrite app_nil_r.
  - split_conj; try reflexivity. exists []. now rewrite app_nil_r.
Qed.

Lemma std_valid_grow (w w' : World) (ext : list Logger) :
  heap w' = heap w ++ ext -> std w' = std w -> std_valid w -> std_valid w'.
Proof.
  unfold std_valid. intros Hh Hs [g Hg]. rewrite Hh, Hs.
  exists g. now apply lookup_app_l_Some.
Qed.

Lemma log_call_frame (c : call) (l : ptr) (lvl : zapcore.Level) (msg : string)
    (fields : list Field) (w : World) :
  is_Init c = false ->
  call_frame c w (Logger_log l lvl msg fields w).
Proof.
  intros Hc.
  destruct (Logger_log_frame l lvl msg fields w) as (Hh & Hs & Ho).
  unfold call_frame. split_conj.
  - exists []. now rewrite app_nil_r.
  - exact Ho.
  - intros _. exact Hs.
  - apply (std_valid_grow w _ []); [now rewrite app_nil_r | exact Hs].
Qed.

Lemma run_call_frame (c : call) (w : World) : call_frame c w (run_call c w).
Proof.
  destruct c as [opts|msg fs|msg fs|msg fs|msg fs|ctx|l lvl msg fs|zw p];
    cbn [run_call];
    try (apply log_call_frame; reflexivity).
  - rewrite Init_eq. unfold call_frame. cbn [heap std output is_Init].
    split_conj.
    + eauto.
    + exists []. now rewrite app_nil_r.
    + discriminate.
    + intros _. unfold std_valid. cbn [heap std]. rewrite lookup_fresh. eauto.
  - destruct (FromContext_as_With ctx w) as [fields ->].
    destruct (Logger_With_frame (std w) fields w) as (Hs & Ho & (ext & Hh & _) & _).
    unfold call_frame. split_conj.
    + eauto.
    + exists []. now rewrite app_nil_r.
    + intros _. exact Hs.
    + now apply (std_valid_grow w _ ext).
  - rewrite Write_eq. cbn [snd]. apply log_call_frame. reflexivity.
Qed.

Lemma run_frame (calls : list call) :
  forall w : World,
  (exists ext, heap (run calls w) = heap w ++ ext)
  /\ (exists ext, output (run calls w) = output w ++ ext)
  /\ (forallb (fun c => negb (is_Init c)) calls = true ->
      std (run calls w) = std w)
  /\ (std_valid w -> std_valid (run calls w)).
Proof.
  unfold run. induction calls as [|c calls IH]; intros w; cbn [fold_left forallb].
  - split_conj; auto; exists []; now rewrite app_nil_r.
  - destruct (run_call_frame c w) as ((e1 & Hh) & (o1 & Ho) & Hs & Hv).
    destruct (IH (run_call c w)) as ((e2 & Hh') & (o2 & Ho') & Hs' & Hv').
    split_conj.
    + exists (e1 ++ e2). now rewrite Hh', Hh, app_assoc.
    + exists (o1 ++ o2). now rewrite Ho', Ho, app_assoc.
    + intros H. apply andb_prop in H. destruct H as [Hc Hrest].
      rewrite Hs' by exact Hrest. apply Hs.
      now apply negb_true_iff in Hc.
    + auto.
Qed.

(** X14: whatever sequence of calls a client makes (re-initialising,
    logging through the package functions, deriving loggers from
    contexts, logging through any logger, writing through adapters),
    the package variable keeps pointing to an existing logger, loggers
    once created stay as they are, and the output is only ever
    extended. *)
Theorem run_keeps_the_package_state_sound (calls : list call) (w : World)
    (Hstd : std_valid w) :
  std_valid (run calls w)
  /\ (forall l g, heap w !! l = Some g -> heap (run calls w) !! l = Some g)
  /\ (exists ext, output (run calls w) = output w ++ ext).
Proof.
  destruct (run_frame calls w) as ((ext & Hh) & Ho & _ & Hv).
  split_conj; [auto | | exact Ho].
  intros l g Hl. rewrite Hh. now apply lookup_app_l_Some.
Qed.

Lemma run_keeps_the_package_state_sound_witness :
  std_valid
    (run [CallInfo "a" []; CallInit [WithLevel "debug"];
          CallFromContext (Some (ContextWithTraceID Background "t"));
          CallWrite (GinWriter init) "x"] init).
Proof.
  apply (run_keeps_the_package_state_sound
           [CallInfo "a" []; CallInit [WithLevel "debug"];
            CallFromContext (Some (ContextWithTraceID Background "t"));
            CallWrite (GinWriter init) "x"] init).
  unfold std_valid. vm_compute. eauto.
Defined.

(** X15: as long as the sequence of calls made after an adapter was
    created contains no re-initialisation, the adapter's logger is
    still the logger the package variable points to, so a write
    through the adapter hands its entry to the current global logger
    and is filtered by that logger's level and routed to that logger's
    sinks. *)
Theorem adapter_follows_std_until_Init (calls : list call) (w : World)
    (g : Logger) (p : string)
    (Hno_init : forallb (fun c => negb (is_Init c)) calls = true)
    (Hstd : heap w !! std w = Some g) :
  let w' := run calls w in
  logger (GinWriter w) = std w' /\ logger (GinErrorWriter w) = std w'
  /\ heap w' !! std w' = Some g
  /\ snd (Write (GinWriter w) p w')
     = Logger_log (std w') zapcore.InfoLevel (Write_msg p) [] w'
  /\ snd (Write (GinErrorWriter w) p w')
     = Logger_log (std w') zapcore.ErrorLevel (Write_msg p) [] w'
  /\ output (snd (Write (GinWriter w) p w')) =
     output w' ++
     (if zapcore.Enabled (core_level g) zapcore.InfoLevel
      then map (fun s => (s, entry_of g zapcore.InfoLevel (Write_msg p) []))
             (core_out g)
      else []).
Proof.
  cbv zeta.
  destruct (run_frame calls w) as ((ext & Hh) & _ & Hs & _).
  specialize (Hs Hno_init).
  assert (Hg : heap (run calls w) !! std (run calls w) = Some g).
  { rewrite Hs, Hh. now apply lookup_app_l_Some. }
  rewrite !Write_eq.
  change (Write_level (GinWriter w)) with zapcore.InfoLevel.
  change (Write_level (GinErrorWriter w)) with zapcore.ErrorLevel.
  cbn [snd logger GinWriter GinErrorWriter]. rewrite <- Hs.
  split_conj; try reflexivity; try assumption.
  unfold Logger_log. rewrite Hg.
  destruct (zapcore.Enabled (core_level g) zapcore.InfoLevel); cbn [output];
    rewrite ?app_nil_r; reflexivity.
Qed.

Lemma adapter_follows_std_until_Init_witness :
  logger (GinWriter init)
  = std (run [CallWarn "w" []; CallFromContext (Some (ContextWithTraceID Background "t"));
              CallWrite (GinErrorWriter init) "e"] init).
Proof.
  apply (adapter_follows_std_until_Init
           [CallWarn "w" []; CallFromContext (Some (ContextWithTraceID Background "t"));
            CallWrite (GinErrorWriter init) "e"]
           init (snd (New_body NewOptions)) ("r" +:+ newline) eq_refl eq_refl).
Defined.

(** X16: [Init] builds its logger from the default options and the
    options given, whatever was configured before; it writes nothing
    and keeps the loggers created earlier; with no options it installs
    a logger configured like the one the package starts with. *)
Theorem Init_starts_from_the_defaults (opts : list Option) (w : World) :
  heap (Init opts w) !! std (Init opts w)
  = Some (snd (New_body (Apply opts NewOptions)))
  /\ output (Init opts w) = output w
  /\ (forall l g, heap w !! l = Some g -> heap (Init opts w) !! l = Some g)
  /\ heap (Init [] w) !! std (Init [] w) = heap init !! std init.
Proof.
  rewrite !Init_eq. cbn [heap std output]. rewrite !lookup_fresh.
  split_conj; try reflexivity.
  intros l g Hl. now apply lookup_app_l_Some.
Qed.
